(** * convert_dictionaries.py: word-frequency lists to JSON

    A shallow embedding of [src/convert_dictionaries.py] and the
    properties of its conversion contract.

    Python values are modelled as follows.
    - [str] is a sequence of Unicode code points, [list N];
    - [bytes] is [list byte];
    - [int] is [Z] (unbounded);
    - the dict [{"w": word, "f": freq_int}] is an insertion-ordered list
      of key/value pairs, the order [json.dumps] iterates in;
    - the file system is a finite map from paths to file contents, the
      console is the list of the strings handed to [print];
    - an uncaught exception is a [Raised] outcome that every sequencing
      step propagates; it keeps the file system the run leaves, not
      the console.

    The library functions the script calls ([str.strip], [str.split],
    [str.join], [int], [json.dumps], [os.path.join], the text layer of
    [open]) are modelled after CPython 3.11 on a POSIX platform whose
    standard output accepts every string. *)

From Stdlib Require Import ZArith NArith List Lia Ascii String Decimal DecimalPos.
From Stdlib.Strings Require Import Byte.
From stdpp Require Import gmap list.

Import ListNotations.
Local Open Scope N_scope.

(** ** Python [str] and [bytes] *)

Abbreviation str := (list N).
Abbreviation bytes := (list byte).

(** An ASCII literal of the script as a [str]. *)
Fixpoint u (s : string) : str :=
  match s with
  | EmptyString => []
  | String c s' => N_of_ascii c :: u s'
  end.

(** Code points of the characters the script and the JSON encoder name. *)
Definition LF : N := 10.
Definition CR : N := 13.
Definition SPACE : N := 32.
Definition QUOTE : N := 34.
Definition BACKSLASH : N := 92.

(** [str.isspace] on one character: the characters [str.strip] and
    [str.split] treat as whitespace (Unicode 14, bidirectional classes
    WS, B, S and category Zs). *)
Definition py_isspace (c : N) : bool :=
  ((0x09 <=? c) && (c <=? 0x0d)) || ((0x1c <=? c) && (c <=? 0x20))
  || (c =? 0x85) || (c =? 0xa0) || (c =? 0x1680)
  || ((0x2000 <=? c) && (c <=? 0x200a))
  || (c =? 0x2028) || (c =? 0x2029) || (c =? 0x202f) || (c =? 0x205f)
  || (c =? 0x3000).

Fixpoint drop_while {A} (p : A -> bool) (l : list A) : list A :=
  match l with
  | [] => []
  | x :: l' => if p x then drop_while p l' else l
  end.

Definition py_lstrip (s : str) : str := drop_while py_isspace s.
Definition py_rstrip (s : str) : str := rev (drop_while py_isspace (rev s)).

(** [s.strip()] *)
Definition py_strip (s : str) : str := py_rstrip (py_lstrip s).

(** [s.split()]: the maximal runs of non-whitespace characters.
    [cur] is the token being read. *)
Definition flush (cur : str) : list str :=
  match cur with [] => [] | _ => [cur] end.

Fixpoint split_from (cur : str) (s : str) : list str :=
  match s with
  | [] => flush cur
  | c :: s' =>
      if py_isspace c then flush cur ++ split_from [] s'
      else split_from (cur ++ [c]) s'
  end.

Definition py_split (s : str) : list str := split_from [] s.

(** [sep.join(parts)] *)
Fixpoint py_join (sep : str) (parts : list str) : str :=
  match parts with
  | [] => []
  | [p] => p
  | p :: ps => p ++ sep ++ py_join sep ps
  end.

(** [str(n)] for an [int]: decimal digits, a leading [-] when negative. *)
Fixpoint uint_chars (d : Decimal.uint) : str :=
  match d with
  | Nil => []
  | D0 d => 48 :: uint_chars d
  | D1 d => 49 :: uint_chars d
  | D2 d => 50 :: uint_chars d
  | D3 d => 51 :: uint_chars d
  | D4 d => 52 :: uint_chars d
  | D5 d => 53 :: uint_chars d
  | D6 d => 54 :: uint_chars d
  | D7 d => 55 :: uint_chars d
  | D8 d => 56 :: uint_chars d
  | D9 d => 57 :: uint_chars d
  end.

Definition py_str_int (z : Z) : str :=
  match z with
  | Z0 => [48]
  | Zpos p => uint_chars (Pos.to_uint p)
  | Zneg p => 45 :: uint_chars (Pos.to_uint p)
  end.

(** ** [int(s)] for a [str]

    [PyLong_FromUnicodeObject]: a non-ASCII string first has its Unicode
    whitespace replaced by a space, its Unicode decimal digits by the
    ASCII digit of the same value and its other characters from 127 on
    by [?]; then [PyLong_FromString] in base 10 skips ASCII whitespace,
    takes a sign, reads digits with single underscores between them,
    skips trailing whitespace and must be at the end.  More than
    [int_max_str_digits] digits are refused. *)

(** First code point of each run of ten decimal digits (category Nd,
    Unicode 14). *)
Definition decimal_zeros : list N :=
  [ 0x30; 0x660; 0x6f0; 0x7c0; 0x966; 0x9e6; 0xa66; 0xae6; 0xb66; 0xbe6;
    0xc66; 0xce6; 0xd66; 0xde6; 0xe50; 0xed0; 0xf20; 0x1040; 0x1090;
    0x17e0; 0x1810; 0x1946; 0x19d0; 0x1a80; 0x1a90; 0x1b50; 0x1bb0;
    0x1c40; 0x1c50; 0xa620; 0xa8d0; 0xa900; 0xa9d0; 0xa9f0; 0xaa50;
    0xabf0; 0xff10; 0x104a0; 0x10d30; 0x11066; 0x110f0; 0x11136; 0x111d0;
    0x112f0; 0x11450; 0x114d0; 0x11650; 0x116c0; 0x11730; 0x118e0;
    0x11950; 0x11c50; 0x11d50; 0x11da0; 0x16a60; 0x16ac0; 0x16b50;
    0x1d7ce; 0x1d7d8; 0x1d7e2; 0x1d7ec; 0x1d7f6; 0x1e140; 0x1e2f0;
    0x1e950; 0x1fbf0 ].

(** [Py_UNICODE_TODECIMAL] *)
Fixpoint decimal_in (zeros : list N) (c : N) : option N :=
  match zeros with
  | [] => None
  | z :: zs =>
      if (z <=? c) && (c <? z + 10) then Some (c - z) else decimal_in zs c
  end.

Definition py_todecimal (c : N) : option N := decimal_in decimal_zeros c.

(** [Py_ISSPACE], the ASCII whitespace of the C parser. *)
Definition c_isspace (c : N) : bool :=
  ((0x09 <=? c) && (c <=? 0x0d)) || (c =? 0x20).

Definition is_ascii (s : str) : bool := forallb (fun c => c <? 128) s.

Definition to_ascii_char (c : N) : N :=
  if c <? 127 then c
  else if py_isspace c then SPACE
  else match py_todecimal c with
       | Some d => 48 + d
       | None => 63
       end.

(** [_PyUnicode_TransformDecimalAndSpaceToASCII] *)
Definition transform_decimal_and_space (s : str) : str :=
  if is_ascii s then s else map to_ascii_char s.

Definition int_max_str_digits : nat := 4300.

Definition c_isdigit (c : N) : bool := (48 <=? c) && (c <=? 57).

(** The digit loop of [long_from_string_base]: [prev] is the character
    before [s], [n] counts the digits and [acc] is their value so far.
    Returns the count, the value and the unread rest; [None] on a
    doubled or trailing underscore. *)
Fixpoint scan_digits (prev : N) (n : nat) (acc : Z) (s : str)
  : option (nat * Z * str) :=
  match s with
  | c :: s' =>
      if c =? 95 then
        if prev =? 95 then None else scan_digits c n acc s'
      else if c_isdigit c then
        scan_digits c (S n) (10 * acc + Z.of_N (c - 48))%Z s'
      else if prev =? 95 then None else Some (n, acc, s)
  | [] => if prev =? 95 then None else Some (n, acc, s)
  end.

(** [PyLong_FromString(buffer, &end, 10)] with the end-of-buffer test of
    its caller. *)
Definition long_from_string (s : str) : option Z :=
  let s := drop_while c_isspace s in
  let '(neg, s) :=
    match s with
    | c :: s' =>
        if c =? 43 then (false, s')
        else if c =? 45 then (true, s')
        else (false, s)
    | [] => (false, s)
    end in
  if match s with c :: _ => c =? 95 | [] => false end then None
  else
    match scan_digits 0 0 0%Z s with
    | Some (n, v, rest) =>
        match n, drop_while c_isspace rest with
        | O, _ => None
        | _, [] =>
            if (int_max_str_digits <? n)%nat then None
            else Some (if neg then (- v)%Z else v)
        | _, _ :: _ => None
        end
    | None => None
    end.

(** [int(s)]: [Some] the value, [None] for [ValueError]. *)
Definition py_int (s : str) : option Z :=
  long_from_string (transform_decimal_and_space s).

(** ** The UTF-8 codec of [open(..., encoding='utf-8')] *)

Definition byte_of (n : N) : byte := default x00 (Byte.of_N (n mod 256)).

Definition is_surrogate (c : N) : bool := (0xD800 <=? c) && (c <=? 0xDFFF).

(** A code point a [str] read from a UTF-8 file can hold. *)
Definition is_scalar (c : N) : bool := (c <? 0x110000) && negb (is_surrogate c).

Definition is_cont (b : N) : bool := (0x80 <=? b) && (b <=? 0xBF).

(** Strict decoding: [None] is [UnicodeDecodeError] (a stray or missing
    continuation byte, an overlong form, a surrogate, a value above
    U+10FFFF). *)
Fixpoint decode_from (bs : list N) : option str :=
  match bs with
  | [] => Some []
  | b0 :: r0 =>
      if b0 <? 0x80 then cons b0 <$> decode_from r0
      else if (0xC2 <=? b0) && (b0 <=? 0xDF) then
        match r0 with
        | b1 :: r1 =>
            if is_cont b1
            then cons ((b0 - 0xC0) * 64 + (b1 - 0x80)) <$> decode_from r1
            else None
        | _ => None
        end
      else if (0xE0 <=? b0) && (b0 <=? 0xEF) then
        match r0 with
        | b1 :: b2 :: r2 =>
            let c := (b0 - 0xE0) * 4096 + (b1 - 0x80) * 64 + (b2 - 0x80) in
            if is_cont b1 && is_cont b2 && (0x800 <=? c) && negb (is_surrogate c)
            then cons c <$> decode_from r2
            else None
        | _ => None
        end
      else if (0xF0 <=? b0) && (b0 <=? 0xF4) then
        match r0 with
        | b1 :: b2 :: b3 :: r3 =>
            let c := (b0 - 0xF0) * 262144 + (b1 - 0x80) * 4096
                     + (b2 - 0x80) * 64 + (b3 - 0x80) in
            if is_cont b1 && is_cont b2 && is_cont b3
               && (0x10000 <=? c) && (c <? 0x110000)
            then cons c <$> decode_from r3
            else None
        | _ => None
        end
      else None
  end.

Definition utf8_decode (b : bytes) : option str :=
  decode_from (map Byte.to_N b).

(** Encoding one character; [None] is [UnicodeEncodeError] (a surrogate). *)
Definition encode_char (c : N) : option bytes :=
  if c <? 0x80 then Some [byte_of c]
  else if c <? 0x800 then
    Some [byte_of (0xC0 + c / 64); byte_of (0x80 + c mod 64)]
  else if c <? 0x10000 then
    if is_surrogate c then None
    else Some [byte_of (0xE0 + c / 4096); byte_of (0x80 + (c / 64) mod 64);
               byte_of (0x80 + c mod 64)]
  else if c <? 0x110000 then
    Some [byte_of (0xF0 + c / 262144); byte_of (0x80 + (c / 4096) mod 64);
          byte_of (0x80 + (c / 64) mod 64); byte_of (0x80 + c mod 64)]
  else None.

Fixpoint utf8_encode (s : str) : option bytes :=
  match s with
  | [] => Some []
  | c :: s' =>
      match encode_char c, utf8_encode s' with
      | Some b, Some bs => Some (b ++ bs)
      | _, _ => None
      end
  end.

(** ** The text layer of [open] (default [newline=None]) *)

(** Reading: [\r\n] and a lone [\r] become [\n].  As in the
    incremental newline decoder, [pendingcr] tells that the character
    before [s] was a [\r], already turned into [\n]. *)
Fixpoint newline_decode (pendingcr : bool) (s : str) : str :=
  match s with
  | [] => []
  | c :: s' =>
      if c =? CR then LF :: newline_decode true s'
      else if (c =? LF) && pendingcr then newline_decode false s'
      else c :: newline_decode false s'
  end.

Definition universal_newlines (s : str) : str := newline_decode false s.

(** Iterating a file: each line with its ending [\n]; a last line
    without one when the text does not end in [\n]. *)
Fixpoint lines_from (cur : str) (s : str) : list str :=
  match s with
  | [] => flush cur
  | c :: s' =>
      if c =? LF then (cur ++ [c]) :: lines_from [] s'
      else lines_from (cur ++ [c]) s'
  end.

Definition text_lines (text : str) : list str :=
  lines_from [] (universal_newlines text).

(** The lines a file opened with [open(path, 'r', encoding='utf-8')]
    yields. *)
Definition read_lines (content : bytes) : option (list str) :=
  text_lines <$> utf8_decode content.

(** Writing: [\n] becomes [os.linesep], which is [\n] itself here. *)
Definition os_linesep : str := [LF].

Definition translate_newlines (s : str) : str :=
  flat_map (fun c => if c =? LF then os_linesep else [c]) s.

(** ** [json.dumps(obj, ensure_ascii=False, separators=(item, key))] *)

Inductive json_value :=
  | JStr (s : str)
  | JInt (z : Z).

(** A dict with [str] keys, in insertion order. *)
Abbreviation py_dict := (list (str * json_value)).

Definition hex_digit (n : N) : N := if n <? 10 then 48 + n else 87 + n.

(** [ESCAPE_DCT] of [json.encoder]: the replacement of a character
    matched by [ESCAPE]; every other character stands for itself. *)
Definition escape_char (c : N) : str :=
  if c =? QUOTE then [BACKSLASH; QUOTE]
  else if c =? BACKSLASH then [BACKSLASH; BACKSLASH]
  else if c =? 0x0a then [BACKSLASH; 110]
  else if c =? 0x0d then [BACKSLASH; 114]
  else if c =? 0x09 then [BACKSLASH; 116]
  else if c =? 0x08 then [BACKSLASH; 98]
  else if c =? 0x0c then [BACKSLASH; 102]
  else if c <? 0x20 then
    [BACKSLASH; 117; 48; 48; hex_digit (c / 16); hex_digit (c mod 16)]
  else [c].

(** [encode_basestring], the string encoder under [ensure_ascii=False]. *)
Definition encode_basestring (s : str) : str :=
  QUOTE :: flat_map escape_char s ++ [QUOTE].

Definition encode_value (v : json_value) : str :=
  match v with
  | JStr s => encode_basestring s
  | JInt z => py_str_int z
  end.

Fixpoint encode_items (item_separator key_separator : str) (d : py_dict)
  : str :=
  match d with
  | [] => []
  | (k, v) :: rest =>
      encode_basestring k ++ key_separator ++ encode_value v
      ++ match rest with
         | [] => []
         | _ => item_separator ++ encode_items item_separator key_separator rest
         end
  end.

Definition json_dumps (item_separator key_separator : str) (d : py_dict)
  : str :=
  [123] ++ encode_items item_separator key_separator d ++ [125].

(** ** The world the script runs in *)

Inductive exn :=
  | FileNotFoundError
  | PermissionError
  | UnicodeDecodeError
  | UnicodeEncodeError.

(** [files]: the regular files by path.  [readonly]: the paths that
    [open(path, 'w')] refuses with [PermissionError].  [stdout]: the
    strings printed so far, oldest first. *)
Record world := World {
  files : gmap str bytes;
  readonly : gset str;
  stdout : list str
}.

(** A run either returns or ends in an uncaught exception; the file
    system it leaves is kept in both cases. *)
Inductive outcome :=
  | Done (w : world)
  | Raised (e : exn) (fs : gmap str bytes).

Definition print (s : str) (w : world) : world :=
  World (files w) (readonly w) (stdout w ++ [s]).

Definition with_stdout (out : list str) (w : world) : world :=
  World (files w) (readonly w) out.

Definition store (path : str) (content : bytes) (w : world) : world :=
  World (<[path := content]> (files w)) (readonly w) (stdout w).

(** [os.path.exists] *)
Definition os_path_exists (path : str) (w : world) : bool :=
  bool_decide (is_Some (files w !! path)).

(** [os.path.join(a, b)] of [posixpath] *)
Definition os_path_join (a b : str) : str :=
  if match b with c :: _ => c =? 47 | [] => false end then b
  else
    match a with
    | [] => a ++ b
    | _ => if List.last a 0 =? 47 then a ++ b else a ++ [47] ++ b
    end.

(** A file object open for writing: the bytes written so far, and
    whether a [write] has raised [UnicodeEncodeError]. *)
Definition writer (A : Type) : Type := bytes -> bytes * option A.

#[global] Instance writer_ret : MRet writer :=
  fun A a buf => (buf, Some a).

#[global] Instance writer_bind : MBind writer :=
  fun A B k m buf =>
    match m buf with
    | (buf', Some a) => k a buf'
    | (buf', None) => (buf', None)
    end.

(** [f.write(s)] *)
Definition f_write (s : str) : writer unit :=
  fun buf =>
    match utf8_encode (translate_newlines s) with
    | Some b => (buf ++ b, Some tt)
    | None => (buf, None)
    end.

(** ** convert_txt_to_json *)

(** [{"w": word, "f": freq_int}] *)
Definition entry (word : str) (freq_int : Z) : py_dict :=
  [(u "w", JStr word); (u "f", JInt freq_int)].

(** The body of the reading loop (lines 21-40) on the list [entries]
    and the console. *)
Definition read_body (line_num : N) (line : str)
  (st : list py_dict * list str) : list py_dict * list str :=
  let '(entries, out) := st in
  let line := py_strip line in
  match line with
  | [] => st
  | _ =>
      let parts := py_split line in
      if (length parts <? 2)%nat then
        (entries,
         out ++ [u "Warning: Line " ++ py_str_int (Z.of_N line_num)
                 ++ u " has invalid format: " ++ line])
      else
        let frequency := List.last parts [] in
        let word := py_join [SPACE] (removelast parts) in
        match py_int frequency with
        | Some freq_int => (entries ++ [entry word freq_int], out)
        | None =>
            (entries,
             out ++ [u "Warning: Line " ++ py_str_int (Z.of_N line_num)
                     ++ u " has invalid frequency: " ++ frequency])
        end
  end.

(** [for line_num, line in enumerate(f, 1)] from [line_num] on. *)
Fixpoint read_loop (line_num : N) (lines : list str)
  (st : list py_dict * list str) : list py_dict * list str :=
  match lines with
  | [] => st
  | line :: rest => read_loop (line_num + 1) rest (read_body line_num line st)
  end.

(** [for i, entry in enumerate(entries)] from [i] on (lines 45-51);
    [n] is [len(entries)]. *)
Fixpoint write_loop (n : Z) (i : Z) (entries : list py_dict) : writer unit :=
  match entries with
  | [] => mret tt
  | entry :: rest =>
      let json_line := json_dumps (u ",") (u ":") entry in
      (if (i <? n - 1)%Z
       then f_write (u "  " ++ json_line ++ [44; LF])
       else f_write (u "  " ++ json_line ++ [LF])) ;;
      write_loop n (i + 1)%Z rest
  end.

(** The body of [with open(json_file, 'w', ...) as f] (lines 44-52). *)
Definition write_body (entries : list py_dict) : writer unit :=
  f_write [91; LF] ;;
  write_loop (Z.of_nat (length entries)) 0 entries ;;
  f_write [93].

Definition convert_txt_to_json (txt_file json_file : str) (w : world)
  : outcome :=
  let w := print (u "Reading " ++ txt_file ++ u "...") w in
  match files w !! txt_file with
  | None => Raised FileNotFoundError (files w)
  | Some content =>
      match read_lines content with
      | None => Raised UnicodeDecodeError (files w)
      | Some lines =>
          let '(entries, out) := read_loop 1 lines ([], stdout w) in
          let count := py_str_int (Z.of_nat (length entries)) in
          let w := with_stdout out w in
          let w := print (u "Writing " ++ json_file ++ u " with " ++ count
                          ++ u " entries...") w in
          if bool_decide (json_file ∈ readonly w) then
            Raised PermissionError (files w)
          else
            match write_body entries [] with
            | (buf, Some _) =>
                Done (print (u "Conversion complete: " ++ count
                             ++ u " entries written to " ++ json_file)
                        (store json_file buf w))
            | (buf, None) =>
                Raised UnicodeEncodeError (<[json_file := buf]> (files w))
            end
      end
  end.

(** ** main *)

Definition base_dir : str := u "app/src/main/assets/common/dictionaries".

Definition conversions : list (str * str) :=
  [ (u "en_50k.txt", u "en_base.json");
    (u "fr_50k.txt", u "fr_base.json");
    (u "pl_50k.txt", u "pl_base.json");
    (u "de_50k.txt", u "de_base.json");
    (u "ru_50k.txt", u "ru_base.json");
    (u "pt_50k.txt", u "pt_base.json");
    (u "es_50k.txt", u "es_base.json") ].

(** [for txt_file, json_file in conversions] (lines 70-79). *)
Fixpoint run_conversions (base_dir : str) (conversions : list (str * str))
  (w : world) : outcome :=
  match conversions with
  | [] => Done w
  | (txt_file, json_file) :: rest =>
      let txt_path := os_path_join base_dir txt_file in
      let json_path := os_path_join base_dir json_file in
      if negb (os_path_exists txt_path w) then
        run_conversions base_dir rest
          (print (u "Error: " ++ txt_path ++ u " not found!") w)
      else
        match convert_txt_to_json txt_path json_path w with
        | Done w' => run_conversions base_dir rest (print [] w')
        | Raised e fs => Raised e fs
        end
  end.

Definition main (w : world) : outcome := run_conversions base_dir conversions w.

(** * The specification's vocabulary *)

(** ** Data model (section 3): an Entry is a word and a frequency. *)
Record Entry := { word : str; frequency : Z }.

(** The dict the script builds for an Entry. *)
Definition to_dict (e : Entry) : py_dict := entry (word e) (frequency e).

(** ** Conditions (section 7), as the console line that reports them. *)
Definition MalformedLine (line_num : N) (content : str) : str :=
  u "Warning: Line " ++ py_str_int (Z.of_N line_num)
  ++ u " has invalid format: " ++ content.

Definition InvalidFrequency (line_num : N) (token : str) : str :=
  u "Warning: Line " ++ py_str_int (Z.of_N line_num)
  ++ u " has invalid frequency: " ++ token.

Definition SourceNotFound (path : str) : str :=
  u "Error: " ++ path ++ u " not found!".

(** ** Line Parser (section 4.1): strip, split on runs of whitespace,
    at least two tokens, the last one an integer, the others joined by
    a single space. *)
Definition tokens (line : str) : list str := py_split (py_strip line).

Definition parse_line (line : str) : option Entry :=
  let parts := tokens line in
  if (2 <=? length parts)%nat then
    match py_int (List.last parts []) with
    | Some freq =>
        Some {| word := py_join [SPACE] (removelast parts); frequency := freq |}
    | None => None
    end
  else None.


(** ** Output format (section 4.2) *)

(** An Entry as a one-line JSON object: key [w] with the word as a JSON
    string, then key [f] with the frequency in decimal, no space after
    [:] or [,]. *)
Definition spec_object (e : Entry) : str :=
  [123; QUOTE; 119; QUOTE; 58; QUOTE] ++ flat_map escape_char (word e)
  ++ [QUOTE; 44; QUOTE; 102; QUOTE; 58] ++ py_str_int (frequency e) ++ [125].

(** The entry lines: two spaces, the object, a comma except on the last
    line, a newline. *)
Definition spec_lines (es : list Entry) : str :=
  match es with
  | [] => []
  | e0 :: _ =>
      flat_map (fun e => [SPACE; SPACE] ++ spec_object e ++ [44; LF])
        (removelast es)
      ++ [SPACE; SPACE] ++ spec_object (List.last es e0) ++ [LF]
  end.

(** The whole file: [[], a newline, the entry lines, []] and nothing
    after it. *)
Definition spec_array (es : list Entry) : str :=
  [91; LF] ++ spec_lines es ++ [93].

(** ** Auxiliary notions of the proofs *)

(** A text that a UTF-8 file can hold. *)
Definition scalar (s : str) : Prop := Forall (fun c => is_scalar c = true) s.



(** The value of a lower-case hexadecimal digit. *)
Definition hex_value (h : N) : N := if h <? 58 then h - 48 else h - 87.

(** Reading back one character of a JSON string: the character and the
    rest of the text; [None] at the closing quote. *)
Definition unescape_head (s : str) : option (N * str) :=
  match s with
  | c :: s' =>
      if c =? BACKSLASH then
        match s' with
        | e :: s'' =>
            if e =? 117 then
              match s'' with
              | _ :: _ :: h1 :: h0 :: rest =>
                  Some (16 * hex_value h1 + hex_value h0, rest)
              | _ => None
              end
            else if e =? 110 then Some (0x0a, s'')
            else if e =? 114 then Some (0x0d, s'')
            else if e =? 116 then Some (0x09, s'')
            else if e =? 98 then Some (0x08, s'')
            else if e =? 102 then Some (0x0c, s'')
            else Some (e, s'')
        | [] => None
        end
      else if c =? QUOTE then None
      else Some (c, s')
  | [] => None
  end.

(** The world a run returns with ([w] when it raises). *)
Definition world_of (o : outcome) (w : world) : world :=
  match o with Done w' => w' | Raised _ _ => w end.

Definition returns (o : outcome) : bool :=
  match o with Done _ => true | Raised _ _ => false end.

(** ** Sample data *)

(** ASCII bytes of a literal. *)
Definition ascii_bytes (s : string) : bytes := list_byte_of_string s.

(** A small French list: a word with a non-ASCII letter, a line ended
    by CR LF, a blank line, a one-token line, a line with a bad
    frequency, a repeated word, a last line without newline. *)
Definition sample_source : bytes :=
  [xc3; xa9] ++ ascii_bytes "t" ++ [xc3; xa9] ++ ascii_bytes " 120" ++ [x0a]
  ++ ascii_bytes "le 100" ++ [x0d; x0a]
  ++ [x0a]
  ++ ascii_bytes "bad" ++ [x0a]
  ++ ascii_bytes "mot abc" ++ [x0a]
  ++ ascii_bytes "le  7" ++ [x0a]
  ++ ascii_bytes "New York 1234".

Definition sample_text : str :=
  [0xe9; 116; 0xe9] ++ u " 120" ++ [LF]
  ++ u "le 100" ++ [CR; LF]
  ++ [LF]
  ++ u "bad" ++ [LF]
  ++ u "mot abc" ++ [LF]
  ++ u "le  7" ++ [LF]
  ++ u "New York 1234".

Definition sample_entries : list Entry :=
  [ {| word := [0xe9; 116; 0xe9]; frequency := 120 |};
    {| word := u "le"; frequency := 100 |};
    {| word := u "le"; frequency := 7 |};
    {| word := u "New York"; frequency := 1234 |} ].

Definition sample_world : world :=
  World {[ u "fr.txt" := sample_source ]} ∅ [].

(** A source without a single valid line, and a destination that
    already exists. *)
Definition rejects_source : bytes :=
  [x0a] ++ ascii_bytes "   " ++ [x0a] ++ ascii_bytes "bad" ++ [x0a]
  ++ ascii_bytes "word abc" ++ [x0a].

Definition rejects_text : str :=
  [LF] ++ u "   " ++ [LF] ++ u "bad" ++ [LF] ++ u "word abc" ++ [LF].

Definition rejects_world : world :=
  World {[ u "in.txt" := rejects_source; u "out.json" := ascii_bytes "stale" ]} ∅ [].

(** The configured directory with the English and Polish lists only. *)
Definition missing_world : world :=
  World {[ os_path_join base_dir (u "en_50k.txt") := ascii_bytes "the 9" ++ [x0a];
           os_path_join base_dir (u "pl_50k.txt") := ascii_bytes "nie 5" ++ [x0a] ]}
    ∅ [].

(** The configured directory with three lists, where the French
    destination cannot be opened for writing. *)
Definition refused_world : world :=
  World {[ os_path_join base_dir (u "en_50k.txt") := ascii_bytes "the 9" ++ [x0a];
           os_path_join base_dir (u "fr_50k.txt") := ascii_bytes "le 100" ++ [x0a];
           os_path_join base_dir (u "pl_50k.txt") := ascii_bytes "nie 5" ++ [x0a] ]}
    {[ os_path_join base_dir (u "fr_base.json") ]} [].

(** [conversions] around its second job. *)
Definition first_job : list (str * str) := [(u "en_50k.txt", u "en_base.json")].
Definition later_jobs : list (str * str) := tail (tail conversions).

(** ** Notions used by the further properties *)

(** The files a run leaves, whether it returns or raises. *)
Definition outcome_files (o : outcome) : gmap str bytes :=
  match o with Done w => files w | Raised _ fs => fs end.

(** [not line] after [line = line.strip()] (line 22). *)
Definition is_blank (line : str) : bool :=
  match py_strip line with [] => true | _ => false end.

(** The warning the loop body prints for a line, if it prints one
    (lines 28 and 39). *)
Definition line_warning (line_num : N) (line : str) : option str :=
  if is_blank line then None
  else if (length (tokens line) <? 2)%nat then
    Some (MalformedLine line_num (py_strip line))
  else
    match py_int (List.last (tokens line) []) with
    | Some _ => None
    | None => Some (InvalidFrequency line_num (List.last (tokens line) []))
    end.

(** The warnings of the lines of a file, numbered from [line_num]. *)
Fixpoint warnings_from (line_num : N) (lines : list str) : list str :=
  match lines with
  | [] => []
  | line :: rest =>
      option_list (line_warning line_num line)
      ++ warnings_from (line_num + 1) rest
  end.

(** A token as [str.split] returns them: not empty, no whitespace. *)
Definition is_token (t : str) : Prop :=
  t <> [] /\ Forall (fun c => py_isspace c = false) t.


(** The English and the Polish job. *)
Definition two_jobs : list (str * str) :=
  [(u "en_50k.txt", u "en_base.json"); (u "pl_50k.txt", u "pl_base.json")].

(** * The line parser *)

Section LineParser.

Variables (line_num : N) (line : str).
Variables (entries : list py_dict) (out : list str).

(** A line with tokens is not blank. *)
Lemma tokens_not_blank : tokens line <> [] -> py_strip line <> [].
Proof.
  unfold tokens. intros Hne Hblank. apply Hne. now rewrite Hblank.
Qed.

(** Blank lines change nothing and print nothing. *)
Lemma read_body_blank :
  py_strip line = [] ->
  read_body line_num line (entries, out) = (entries, out).
Proof.
  intros Hblank. unfold read_body. now rewrite Hblank.
Qed.

(** The three ways out of the loop body on a non-blank line. *)
Lemma read_body_nonblank :
  py_strip line <> [] ->
  read_body line_num line (entries, out) =
    if (length (tokens line) <? 2)%nat then
      (entries, out ++ [MalformedLine line_num (py_strip line)])
    else
      match py_int (List.last (tokens line) []) with
      | Some freq_int =>
          (entries ++
             [entry (py_join [SPACE] (removelast (tokens line))) freq_int],
           out)
      | None =>
          (entries,
           out ++ [InvalidFrequency line_num (List.last (tokens line) [])])
      end.
Proof.
  intros Hne. unfold read_body, tokens, MalformedLine, InvalidFrequency.
  destruct (py_strip line) as [|c l] eqn:Hstrip; [congruence|reflexivity].
Qed.


End LineParser.

(** * A stripped line with one token is that token *)

Lemma drop_while_head {A} (p : A -> bool) l x r :
  drop_while p l = x :: r -> p x = false.
Proof.
  induction l as [|y l IH]; simpl; [discriminate|].
  destruct (p y) eqn:Hy; [exact IH|]. now intros [= <- _].
Qed.

Lemma drop_while_suffix {A} (p : A -> bool) l :
  exists skipped, l = skipped ++ drop_while p l.
Proof.
  induction l as [|y l [sk IH]]; simpl; [now exists []|].
  destruct (p y); [|now exists []].
  exists (y :: sk). simpl. now rewrite <- IH.
Qed.

(** The first and the last character of a stripped line are not
    whitespace. *)
Lemma py_strip_ends line c s :
  py_strip line = c :: s ->
  py_isspace c = false /\ py_isspace (List.last (c :: s) 0) = false.
Proof.
  unfold py_strip, py_rstrip, py_lstrip. intros Hstrip. split.
  - destruct (drop_while_suffix py_isspace (rev (drop_while py_isspace line)))
      as [sk Hsk].
    apply (f_equal (@rev N)) in Hsk.
    rewrite rev_involutive, rev_app_distr, Hstrip in Hsk.
    now apply (drop_while_head py_isspace line c (s ++ rev sk)).
  - destruct (drop_while py_isspace (rev (drop_while py_isspace line)))
      as [|x r] eqn:Hd; [discriminate|].
    apply drop_while_head in Hd.
    simpl in Hstrip. rewrite <- Hstrip, last_last. exact Hd.
Qed.

Lemma split_from_no_space s :
  forall cur,
    forallb (fun c => negb (py_isspace c)) s = true ->
    split_from cur s = flush (cur ++ s).
Proof.
  induction s as [|c s IH]; intros cur Hs; cbn [split_from].
  - now rewrite app_nil_r.
  - cbn [forallb] in Hs. apply andb_true_iff in Hs as [Hc Hs].
    apply negb_true_iff in Hc. rewrite Hc, IH by assumption.
    now rewrite <- app_assoc.
Qed.

Lemma split_from_nonempty s :
  forall cur, cur <> [] -> split_from cur s <> [].
Proof.
  induction s as [|c s IH]; intros cur Hcur; cbn [split_from].
  - now destruct cur.
  - destruct (py_isspace c).
    + destruct cur; [congruence|discriminate].
    + apply IH. now destruct cur.
Qed.

Lemma split_from_has_token s :
  forall cur,
    s <> [] -> py_isspace (List.last s 0) = false ->
    split_from cur s <> [].
Proof.
  induction s as [|c s IH]; intros cur Hs Hlast; [congruence|].
  cbn [split_from]. destruct (py_isspace c) eqn:Hc.
  - destruct s as [|d s]; [simpl in Hlast; congruence|].
    intros Happ. apply app_eq_nil in Happ as [_ Happ].
    now apply (IH [] ltac:(discriminate) Hlast).
  - apply split_from_nonempty. now destruct cur.
Qed.

Lemma split_from_one s :
  forall cur,
    cur <> [] ->
    (s <> [] -> py_isspace (List.last s 0) = false) ->
    (length (split_from cur s) < 2)%nat ->
    forallb (fun c => negb (py_isspace c)) s = true.
Proof.
  induction s as [|c s IH]; intros cur Hcur Hlast Hlen; [reflexivity|].
  cbn [split_from] in Hlen. cbn [forallb].
  destruct (py_isspace c) eqn:Hc.
  - exfalso. destruct cur as [|x cur]; [congruence|]. cbn [flush] in Hlen.
    specialize (Hlast ltac:(discriminate)).
    destruct s as [|d s]; [simpl in Hlast; congruence|].
    pose proof (split_from_has_token (d :: s) [] ltac:(discriminate) Hlast).
    destruct (split_from [] (d :: s)); [congruence|].
    simpl in Hlen. lia.
  - cbn [negb andb]. apply (IH (cur ++ [c])).
    + now destruct cur.
    + intros Hs. specialize (Hlast ltac:(discriminate)).
      destruct s; [congruence|exact Hlast].
    + exact Hlen.
Qed.

Lemma single_token line :
  py_strip line <> [] ->
  (length (tokens line) < 2)%nat ->
  tokens line = [py_strip line].
Proof.
  unfold tokens, py_split. intros Hne Hlen.
  destruct (py_strip line) as [|c s] eqn:Hstrip; [congruence|].
  destruct (py_strip_ends line c s Hstrip) as [Hc Hlast].
  cbn [split_from] in *. rewrite Hc in *.
  rewrite split_from_no_space; [reflexivity|].
  apply (split_from_one s [c]); [discriminate| |exact Hlen].
  intros Hs. destruct s; [congruence|exact Hlast].
Qed.

(** The loop over a file split in two: the second part starts where the
    first one stopped, with the line numbers moved on. *)
Lemma read_loop_app (l1 l2 : list str) :
  forall n st,
    read_loop n (l1 ++ l2) st =
    read_loop (n + N.of_nat (length l1)) l2 (read_loop n l1 st).
Proof.
  induction l1 as [|l l1 IH]; intros n st; simpl length.
  - simpl. now rewrite N.add_0_r.
  - change ((l :: l1) ++ l2) with (l :: (l1 ++ l2)).
    cbn [read_loop]. rewrite IH. f_equal. lia.
Qed.

(** The line at position [length pre + 1] of a file, seen from the
    whole loop. *)
Lemma read_loop_at (pre post : list str) (line : str) st :
  read_loop 1 (pre ++ line :: post) st =
  read_loop (N.of_nat (length pre) + 2) post
    (read_body (N.of_nat (length pre) + 1) line (read_loop 1 pre st)).
Proof.
  rewrite read_loop_app. cbn [read_loop].
  replace (1 + N.of_nat (length pre)) with (N.of_nat (length pre) + 1) by lia.
  f_equal. lia.
Qed.

(** * From the reading loop to the Line Parser *)

Lemma read_body_parse_line line_num line entries out :
  fst (read_body line_num line (entries, out)) =
  entries ++ match parse_line line with Some e => [to_dict e] | None => [] end.
Proof.
  unfold parse_line.
  destruct (py_strip line) as [|c l] eqn:Hstrip.
  - rewrite read_body_blank by assumption.
    unfold tokens. rewrite Hstrip. simpl. now rewrite app_nil_r.
  - rewrite read_body_nonblank by (rewrite Hstrip; discriminate).
    destruct (Nat.ltb_spec (length (tokens line)) 2) as [Hlt|Hge].
    + destruct (Nat.leb_spec 2 (length (tokens line))); [lia|].
      simpl. now rewrite app_nil_r.
    + destruct (Nat.leb_spec 2 (length (tokens line))); [|lia].
      destruct (py_int (List.last (tokens line) [])); simpl;
        [reflexivity | now rewrite app_nil_r].
Qed.

Lemma read_loop_entries lines :
  forall line_num entries out,
    fst (read_loop line_num lines (entries, out)) =
    entries ++ map to_dict (omap parse_line lines).
Proof.
  induction lines as [|line lines IH]; intros line_num entries out.
  - simpl. now rewrite app_nil_r.
  - cbn [read_loop].
    pose proof (read_body_parse_line line_num line entries out) as Hbody.
    destruct (read_body line_num line (entries, out)) as [es o].
    cbn [fst] in Hbody. rewrite IH, Hbody. cbn [omap list_omap].
    destruct (parse_line line); simpl; now rewrite <- app_assoc.
Qed.

(** * Writing *)

Lemma translate_newlines_id s : translate_newlines s = s.
Proof.
  unfold translate_newlines.
  induction s as [|c s IH]; [reflexivity|].
  cbn [flat_map]. rewrite IH.
  destruct (N.eqb_spec c LF) as [->|]; reflexivity.
Qed.

Lemma utf8_encode_app s1 s2 :
  utf8_encode (s1 ++ s2) =
  b1 ← utf8_encode s1; b2 ← utf8_encode s2; Some (b1 ++ b2).
Proof.
  induction s1 as [|c s1 IH]; simpl.
  - now destruct (utf8_encode s2).
  - rewrite IH.
    destruct (encode_char c), (utf8_encode s1), (utf8_encode s2); simpl;
      try reflexivity.
    now rewrite app_assoc.
Qed.

Lemma utf8_encode_app_Some s1 s2 b1 b2 :
  utf8_encode s1 = Some b1 -> utf8_encode s2 = Some b2 ->
  utf8_encode (s1 ++ s2) = Some (b1 ++ b2).
Proof. intros H1 H2. now rewrite utf8_encode_app, H1, H2. Qed.

Lemma f_write_ok s b buf :
  utf8_encode s = Some b -> f_write s buf = (buf ++ b, Some tt).
Proof. intros H. unfold f_write. now rewrite translate_newlines_id, H. Qed.

Lemma json_dumps_entry e :
  json_dumps (u ",") (u ":") (to_dict e) = spec_object e.
Proof.
  unfold json_dumps, to_dict, entry, spec_object. cbn [encode_items encode_value].
  change (encode_basestring (u "w")) with [QUOTE; 119; QUOTE].
  change (encode_basestring (u "f")) with [QUOTE; 102; QUOTE].
  unfold encode_basestring. cbn [u]. 
  repeat (rewrite <- ?app_assoc; cbn [app]). reflexivity.
Qed.

Lemma last_default_irrelevant {A} (l : list A) (d d' : A) :
  l <> [] -> List.last l d = List.last l d'.
Proof.
  induction l as [|x [|y l] IH]; intros Hne; [congruence|reflexivity|].
  change (List.last (y :: l) d = List.last (y :: l) d').
  apply IH. discriminate.
Qed.

Lemma spec_lines_one e : spec_lines [e] = [SPACE; SPACE] ++ spec_object e ++ [LF].
Proof. reflexivity. Qed.

Lemma spec_lines_cons e e' es :
  spec_lines (e :: e' :: es) =
  ([SPACE; SPACE] ++ spec_object e ++ [44; LF]) ++ spec_lines (e' :: es).
Proof.
  unfold spec_lines.
  change (removelast (e :: e' :: es)) with (e :: removelast (e' :: es)).
  change (List.last (e :: e' :: es) e) with (List.last (e' :: es) e).
  rewrite (last_default_irrelevant (e' :: es) e e') by discriminate.
  cbn [flat_map]. now rewrite <- !app_assoc.
Qed.

Lemma write_loop_ok es :
  forall i buf b,
    utf8_encode (spec_lines es) = Some b ->
    write_loop (i + Z.of_nat (length es)) i (map to_dict es) buf
    = (buf ++ b, Some tt).
Proof.
  induction es as [|e es IH]; intros i buf b Henc.
  - simpl in Henc. injection Henc as <-. simpl. now rewrite app_nil_r.
  - cbn [map write_loop]. rewrite json_dumps_entry.
    unfold mbind, writer_bind.
    destruct es as [|e' es].
    + rewrite spec_lines_one in Henc.
      destruct (Z.ltb_spec i (i + Z.of_nat (length [e]) - 1)) as [Hlt|_];
        [simpl in Hlt; lia|].
      change (u "  ") with [SPACE; SPACE].
      rewrite (f_write_ok _ b) by assumption. reflexivity.
    + rewrite spec_lines_cons, utf8_encode_app in Henc.
      destruct (utf8_encode ([SPACE; SPACE] ++ spec_object e ++ [44; LF]))
        as [b1|] eqn:H1; [|discriminate].
      destruct (utf8_encode (spec_lines (e' :: es))) as [b2|] eqn:H2;
        [|discriminate].
      simpl in Henc. injection Henc as <-.
      destruct (Z.ltb_spec i (i + Z.of_nat (length (e :: e' :: es)) - 1))
        as [_|Hge]; [|simpl length in Hge; lia].
      change (u "  ") with [SPACE; SPACE].
      rewrite (f_write_ok _ b1) by assumption.
      replace (i + Z.of_nat (length (e :: e' :: es)))%Z
        with ((i + 1) + Z.of_nat (length (e' :: es)))%Z
        by (simpl length; lia).
      rewrite (IH (i + 1)%Z (buf ++ b1) b2) by reflexivity.
      now rewrite app_assoc.
Qed.

Lemma write_body_ok es b :
  utf8_encode (spec_array es) = Some b ->
  write_body (map to_dict es) [] = (b, Some tt).
Proof.
  unfold spec_array. rewrite !utf8_encode_app.
  destruct (utf8_encode [91; LF]) as [b0|] eqn:H0; [|discriminate].
  destruct (utf8_encode (spec_lines es)) as [b1|] eqn:H1; [|discriminate].
  destruct (utf8_encode [93]) as [b2|] eqn:H2; [|discriminate].
  simpl. intros [= <-].
  unfold write_body, mbind, writer_bind.
  rewrite (f_write_ok _ b0) by assumption.
  rewrite length_map.
  pose proof (write_loop_ok es 0%Z ([] ++ b0) b1 H1) as Hloop.
  rewrite Z.add_0_l in Hloop. rewrite Hloop.
  rewrite (f_write_ok _ b2) by assumption.
  now rewrite <- !app_assoc.
Qed.

(** * Text read from a UTF-8 file can be written to one *)

Lemma is_scalar_iff c :
  is_scalar c = true <-> c < 0xD800 \/ (0xDFFF < c /\ c < 0x110000).
Proof.
  unfold is_scalar, is_surrogate.
  rewrite andb_true_iff, negb_true_iff, andb_false_iff.
  rewrite N.ltb_lt, !N.leb_gt. lia.
Qed.

Lemma ascii_scalar c : c < 128 -> is_scalar c = true.
Proof. intros H. apply is_scalar_iff. lia. Qed.

Ltac bools :=
  repeat match goal with
    | H : _ && _ = true |- _ => apply andb_true_iff in H; destruct H
    | H : negb _ = true |- _ => apply negb_true_iff in H
    | H : (_ <? _) = true |- _ => apply N.ltb_lt in H
    | H : (_ <? _) = false |- _ => apply N.ltb_ge in H
    | H : (_ <=? _) = true |- _ => apply N.leb_le in H
    | H : (_ <=? _) = false |- _ => apply N.leb_gt in H
    | H : (_ =? _) = true |- _ => apply N.eqb_eq in H
    | H : (_ =? _) = false |- _ => apply N.eqb_neq in H
    end.

Lemma decode_from_scalar n :
  forall bs s, (length bs <= n)%nat -> decode_from bs = Some s -> scalar s.
Proof.
  induction n as [|n IH]; intros bs s Hlen Hdec.
  - destruct bs; [|simpl in Hlen; lia]. injection Hdec as <-. constructor.
  - destruct bs as [|b0 r0]; [injection Hdec as <-; constructor|].
    cbn [decode_from] in Hdec. simpl in Hlen.
    destruct (b0 <? 0x80) eqn:E1.
    { destruct (decode_from r0) as [t|] eqn:Ht; [|discriminate].
      injection Hdec as <-. bools. constructor.
      - apply ascii_scalar. lia.
      - apply (IH r0); [lia|assumption]. }
    destruct ((0xC2 <=? b0) && (b0 <=? 0xDF)) eqn:E2.
    { destruct r0 as [|b1 r1]; [discriminate|].
      destruct (is_cont b1) eqn:C1; [|discriminate].
      destruct (decode_from r1) as [t|] eqn:Ht; [|discriminate].
      injection Hdec as <-. unfold is_cont in *. bools. constructor.
      - apply is_scalar_iff. lia.
      - apply (IH r1); [simpl in Hlen; lia|assumption]. }
    destruct ((0xE0 <=? b0) && (b0 <=? 0xEF)) eqn:E3.
    { destruct r0 as [|b1 [|b2 r2]]; try discriminate.
      cbv zeta in Hdec.
      match type of Hdec with (if ?c then _ else _) = _ =>
        destruct c eqn:C end; [|discriminate].
      destruct (decode_from r2) as [t|] eqn:Ht; [|discriminate].
      injection Hdec as <-. unfold is_cont, is_surrogate in *. bools.
      constructor.
      - unfold is_scalar, is_surrogate.
        match goal with H : _ = false |- _ => rewrite H end.
        rewrite andb_true_r. apply N.ltb_lt. lia.
      - apply (IH r2); [simpl in Hlen; lia|assumption]. }
    destruct ((0xF0 <=? b0) && (b0 <=? 0xF4)) eqn:E4; [|discriminate].
    destruct r0 as [|b1 [|b2 [|b3 r3]]]; try discriminate.
    cbv zeta in Hdec.
    match type of Hdec with (if ?c then _ else _) = _ =>
      destruct c eqn:C end; [|discriminate].
    destruct (decode_from r3) as [t|] eqn:Ht; [|discriminate].
    injection Hdec as <-. bools. constructor.
    + apply is_scalar_iff. lia.
    + apply (IH r3); [simpl in Hlen; lia|assumption].
Qed.

Lemma utf8_decode_scalar content text :
  utf8_decode content = Some text -> scalar text.
Proof.
  unfold utf8_decode. intros H.
  eapply decode_from_scalar; [reflexivity|exact H].
Qed.

Lemma newline_decode_scalar s :
  forall pendingcr, scalar s -> scalar (newline_decode pendingcr s).
Proof.
  unfold scalar.
  induction s as [|c s IH]; intros pendingcr Hs; [constructor|].
  apply Forall_cons in Hs as [Hc Hs]. cbn [newline_decode].
  destruct (c =? CR); [constructor; [reflexivity|now apply IH]|].
  destruct ((c =? LF) && pendingcr); [now apply IH|].
  constructor; [assumption|now apply IH].
Qed.

Lemma flush_scalar cur : scalar cur -> Forall scalar (flush cur).
Proof.
  intros H. destruct cur; [constructor|].
  constructor; [exact H|constructor].
Qed.

Lemma lines_from_scalar s :
  forall cur, scalar cur -> scalar s -> Forall scalar (lines_from cur s).
Proof.
  induction s as [|c s IH]; intros cur Hcur Hs; cbn [lines_from].
  - now apply flush_scalar.
  - apply Forall_cons in Hs as [Hc Hs].
    assert (scalar (cur ++ [c])) by (apply Forall_app; split; [assumption|now constructor]).
    destruct (c =? LF).
    + constructor; [assumption|]. apply IH; [constructor|assumption].
    + now apply IH.
Qed.

Lemma text_lines_scalar text : scalar text -> Forall scalar (text_lines text).
Proof.
  intros H. apply lines_from_scalar; [constructor|].
  now apply newline_decode_scalar.
Qed.

Lemma drop_while_Forall {A} (P : A -> Prop) p (l : list A) :
  Forall P l -> Forall P (drop_while p l).
Proof.
  induction 1 as [|x l Hx Hl IH]; simpl; [constructor|].
  destruct (p x); [assumption|now constructor].
Qed.

Lemma py_strip_scalar s : scalar s -> scalar (py_strip s).
Proof.
  intros H. unfold py_strip, py_rstrip, py_lstrip.
  apply Forall_rev, drop_while_Forall, Forall_rev, drop_while_Forall, H.
Qed.

Lemma split_from_scalar s :
  forall cur, scalar cur -> scalar s -> Forall scalar (split_from cur s).
Proof.
  induction s as [|c s IH]; intros cur Hcur Hs; cbn [split_from].
  - now apply flush_scalar.
  - apply Forall_cons in Hs as [Hc Hs].
    destruct (py_isspace c).
    + apply Forall_app. split; [now apply flush_scalar|].
      apply IH; [constructor|assumption].
    + apply IH; [|assumption].
      apply Forall_app; split; [assumption|now constructor].
Qed.

Lemma tokens_scalar line : scalar line -> Forall scalar (tokens line).
Proof.
  intros H. apply split_from_scalar; [constructor|now apply py_strip_scalar].
Qed.

Lemma removelast_Forall {A} (P : A -> Prop) (l : list A) :
  Forall P l -> Forall P (removelast l).
Proof.
  induction 1 as [|x l Hx Hl IH]; [constructor|].
  destruct l; [constructor|]. now constructor.
Qed.

Lemma py_join_scalar sep parts :
  scalar sep -> Forall scalar parts -> scalar (py_join sep parts).
Proof.
  intros Hsep. induction 1 as [|p ps Hp Hps IH]; [constructor|].
  destruct ps as [|q ps]; [exact Hp|].
  change (scalar (p ++ sep ++ py_join sep (q :: ps))).
  apply Forall_app; split; [assumption|].
  apply Forall_app; split; assumption.
Qed.

Lemma parse_line_scalar line e :
  scalar line -> parse_line line = Some e -> scalar (word e).
Proof.
  intros Hline. unfold parse_line.
  destruct (2 <=? length (tokens line))%nat; [|discriminate].
  destruct (py_int (List.last (tokens line) [])); [|discriminate].
  intros [= <-]. cbn [word].
  apply py_join_scalar; [now repeat constructor|].
  now apply removelast_Forall, tokens_scalar.
Qed.

Lemma omap_parse_line_scalar lines :
  Forall scalar lines ->
  Forall (fun e => scalar (word e)) (omap parse_line lines).
Proof.
  induction 1 as [|l ls Hl Hls IH]; [constructor|].
  cbn [omap list_omap].
  destruct (parse_line l) as [e|] eqn:He; [|exact IH].
  constructor; [|exact IH]. now apply (parse_line_scalar l).
Qed.

(** The JSON text of an entry. *)

Lemma hex_digit_range n : n < 16 -> 48 <= hex_digit n < 128.
Proof. intros H. unfold hex_digit. destruct (N.ltb_spec n 10); lia. Qed.

Lemma escape_char_cases c :
  (escape_char c = [c] /\ c <> LF /\ c <> CR /\ 32 <= c)
  \/ Forall (fun d => 32 <= d < 128) (escape_char c).
Proof.
  unfold escape_char, QUOTE, BACKSLASH.
  destruct (N.eqb_spec c 34); [right; repeat constructor; lia|].
  destruct (N.eqb_spec c 92); [right; repeat constructor; lia|].
  destruct (N.eqb_spec c 10); [right; repeat constructor; lia|].
  destruct (N.eqb_spec c 13); [right; repeat constructor; lia|].
  destruct (N.eqb_spec c 9); [right; repeat constructor; lia|].
  destruct (N.eqb_spec c 8); [right; repeat constructor; lia|].
  destruct (N.eqb_spec c 12); [right; repeat constructor; lia|].
  destruct (N.ltb_spec c 32) as [Hlt|Hge].
  - right.
    assert (c / 16 < 16) by (apply N.Div0.div_lt_upper_bound; lia).
    assert (c mod 16 < 16) by (apply N.mod_lt; lia).
    pose proof (hex_digit_range (c / 16)). pose proof (hex_digit_range (c mod 16)).
    repeat constructor; lia.
  - left. unfold LF, CR. repeat split; assumption.
Qed.

Lemma uint_chars_digits d : Forall (fun c => 48 <= c <= 57) (uint_chars d).
Proof. induction d; simpl; constructor; (lia || assumption). Qed.

Lemma py_str_int_chars z : Forall (fun c => 32 <= c < 128) (py_str_int z).
Proof.
  assert (forall d, Forall (fun c => 32 <= c < 128) (uint_chars d)) as Hd.
  { intros d. eapply Forall_impl; [apply uint_chars_digits|].
    simpl. intros. lia. }
  destruct z; simpl; [repeat constructor; lia|apply Hd|].
  constructor; [lia|apply Hd].
Qed.

Lemma escape_char_printable c : Forall (fun d => 32 <= d) (escape_char c).
Proof.
  destruct (escape_char_cases c) as [(-> & _ & _ & Hc)|H].
  - now repeat constructor.
  - eapply Forall_impl; [exact H|]. simpl. intros. lia.
Qed.

Lemma escape_char_scalar c : is_scalar c = true -> scalar (escape_char c).
Proof.
  intros Hc. destruct (escape_char_cases c) as [(-> & _)|H].
  - now repeat constructor.
  - eapply Forall_impl; [exact H|]. simpl. intros. apply ascii_scalar. lia.
Qed.

Lemma flat_map_Forall {A B} (P : A -> Prop) (Q : B -> Prop) (f : A -> list B) l :
  (forall x, P x -> Forall Q (f x)) -> Forall P l -> Forall Q (flat_map f l).
Proof.
  intros Hf. induction 1 as [|x l Hx Hl IH]; simpl; [constructor|].
  apply Forall_app; split; [now apply Hf|exact IH].
Qed.

(** An entry line holds no control character: it is one line. *)
Lemma spec_object_printable e : Forall (fun d => 32 <= d) (spec_object e).
Proof.
  unfold spec_object, QUOTE.
  repeat (apply Forall_app; split); try (repeat constructor; lia).
  - apply (flat_map_Forall (fun _ => True)); [|now apply Forall_true].
    intros c _. apply escape_char_printable.
  - eapply Forall_impl; [apply py_str_int_chars|]. simpl. intros. lia.
Qed.

Lemma spec_object_scalar e : scalar (word e) -> scalar (spec_object e).
Proof.
  intros Hw. unfold spec_object, QUOTE.
  repeat (apply Forall_app; split); try (now repeat constructor).
  - apply (flat_map_Forall (fun c => is_scalar c = true)); [|exact Hw].
    apply escape_char_scalar.
  - eapply Forall_impl; [apply py_str_int_chars|]. simpl. intros.
    apply ascii_scalar. lia.
Qed.

Lemma spec_lines_scalar es :
  Forall (fun e => scalar (word e)) es -> scalar (spec_lines es).
Proof.
  intros Hes. unfold spec_lines. destruct es as [|e0 es']; [constructor|].
  apply Forall_app; split.
  - apply (flat_map_Forall (fun e => scalar (word e)));
      [|now apply removelast_Forall].
    intros e He. apply Forall_app; split; [now repeat constructor|].
    apply Forall_app; split; [|now repeat constructor].
    now apply spec_object_scalar.
  - apply Forall_app; split; [now repeat constructor|].
    apply Forall_app; split; [|now repeat constructor].
    apply spec_object_scalar.
    pose proof (@exists_last _ (e0 :: es') ltac:(discriminate)) as (l' & a & Heq).
    rewrite Heq, last_last. rewrite Heq in Hes.
    apply Forall_app in Hes as [_ Ha]. now apply Forall_cons in Ha as [Ha _].
Qed.

Lemma spec_array_scalar es :
  Forall (fun e => scalar (word e)) es -> scalar (spec_array es).
Proof.
  intros Hes. unfold spec_array.
  apply Forall_app; split; [now repeat constructor|].
  apply Forall_app; split; [|now repeat constructor].
  now apply spec_lines_scalar.
Qed.

Lemma encode_char_scalar c : is_scalar c = true -> is_Some (encode_char c).
Proof.
  intros Hc. unfold encode_char.
  destruct (c <? 0x80); [eauto|].
  destruct (c <? 0x800); [eauto|].
  unfold is_scalar in Hc. apply andb_true_iff in Hc as [Hlt Hns].
  apply negb_true_iff in Hns. rewrite Hns, Hlt.
  destruct (c <? 0x10000); eauto.
Qed.

Lemma utf8_encode_scalar s : scalar s -> is_Some (utf8_encode s).
Proof.
  induction 1 as [|c s Hc Hs [bs IH]]; simpl; [eauto|].
  destruct (encode_char_scalar c Hc) as [b ->]. rewrite IH. eauto.
Qed.

(** * convert_txt_to_json on a readable source *)

Section Convert.

Variables (w : world) (txt_file json_file : str).
Variables (content : bytes) (text : str).
Hypothesis Hsource : files w !! txt_file = Some content.
Hypothesis Hdecode : utf8_decode content = Some text.

Lemma entries_scalar :
  Forall (fun e => scalar (word e)) (omap parse_line (text_lines text)).
Proof.
  apply omap_parse_line_scalar, text_lines_scalar.
  exact (utf8_decode_scalar _ _ Hdecode).
Qed.

Lemma read_loop_of_source out :
  exists out',
    read_loop 1 (text_lines text) ([], out) =
      (map to_dict (omap parse_line (text_lines text)), out').
Proof.
  pose proof (read_loop_entries (text_lines text) 1 [] out) as H.
  destruct (read_loop 1 (text_lines text) ([], out)) as [entries out'].
  exists out'. cbn [fst] in H. now rewrite H.
Qed.

(** The conversion returns, and the destination holds the UTF-8
    encoding of the array of the parsed entries. *)
Lemma convert_txt_to_json_done :
  json_file ∉ readonly w ->
  exists w' out,
    convert_txt_to_json txt_file json_file w = Done w'
    /\ files w' = <[json_file := out]> (files w)
    /\ readonly w' = readonly w
    /\ utf8_encode (spec_array (omap parse_line (text_lines text))) = Some out.
Proof.
  intros Hrw.
  destruct (utf8_encode_scalar _ (spec_array_scalar _ entries_scalar))
    as [b Hb].
  unfold convert_txt_to_json. cbn [files stdout print].
  rewrite Hsource. unfold read_lines. rewrite Hdecode. cbn [fmap option_fmap option_map].
  destruct (read_loop_of_source (stdout w ++ [u "Reading " ++ txt_file ++ u "..."]))
    as [out' ->].
  cbn [readonly files print with_stdout].
  rewrite bool_decide_eq_false_2 by assumption.
  rewrite (write_body_ok _ b Hb).
  eexists _, b. split; [reflexivity|]. split; [reflexivity|].
  split; [reflexivity|exact Hb].
Qed.

(** A destination that cannot be opened for writing: the error leaves
    the conversion, the file system is as before. *)
Lemma convert_txt_to_json_refused :
  json_file ∈ readonly w ->
  convert_txt_to_json txt_file json_file w = Raised PermissionError (files w).
Proof.
  intros Hro.
  unfold convert_txt_to_json. cbn [files stdout print].
  rewrite Hsource. unfold read_lines. rewrite Hdecode. cbn [fmap option_fmap option_map].
  destruct (read_loop_of_source (stdout w ++ [u "Reading " ++ txt_file ++ u "..."]))
    as [out' ->].
  cbn [readonly files print with_stdout].
  now rewrite bool_decide_eq_true_2 by assumption.
Qed.

End Convert.

(** * The job runner *)

Lemma run_conversions_app base pre post :
  forall w,
    run_conversions base (pre ++ post) w =
    match run_conversions base pre w with
    | Done w1 => run_conversions base post w1
    | Raised e fs => Raised e fs
    end.
Proof.
  induction pre as [|[txt json] pre IH]; intros w; [reflexivity|].
  change (((txt, json) :: pre) ++ post) with ((txt, json) :: (pre ++ post)).
  cbn [run_conversions].
  destruct (negb (os_path_exists (os_path_join base txt) w)); [apply IH|].
  destruct (convert_txt_to_json _ _ w); [apply IH|reflexivity].
Qed.

Lemma os_path_exists_true path w :
  is_Some (files w !! path) -> os_path_exists path w = true.
Proof. intros H. unfold os_path_exists. now apply bool_decide_eq_true_2. Qed.

Lemma os_path_exists_false path w :
  files w !! path = None -> os_path_exists path w = false.
Proof.
  intros H. unfold os_path_exists. apply bool_decide_eq_false_2.
  rewrite H. now intros [x Hx].
Qed.

(** An exception of one conversion ends the loop. *)
Lemma run_conversions_raise base txt json rest w e fs :
  is_Some (files w !! os_path_join base txt) ->
  convert_txt_to_json (os_path_join base txt) (os_path_join base json) w
    = Raised e fs ->
  run_conversions base ((txt, json) :: rest) w = Raised e fs.
Proof.
  intros Hex Hconv. cbn [run_conversions].
  rewrite os_path_exists_true by assumption. cbn [negb]. now rewrite Hconv.
Qed.

(** * [int] on plain literals *)






(** * The file determines the text: decoding undoes encoding *)

Lemma to_N_byte_of n : n < 256 -> Byte.to_N (byte_of n) = n.
Proof.
  intros Hn. unfold byte_of. rewrite N.mod_small by assumption.
  destruct (Byte.of_N n) as [y|] eqn:Hy.
  - now apply Byte.to_of_N.
  - apply Byte.of_N_None_iff in Hy. lia.
Qed.

Lemma div_mod_64 c : c = 64 * (c / 64) + c mod 64 /\ c mod 64 < 64.
Proof. split; [apply N.div_mod; lia|apply N.mod_lt; lia]. Qed.

(** The six-bit groups of a code point. *)
Lemma six_bit_groups c :
  c = 64 * (c / 64) + c mod 64 /\ c mod 64 < 64
  /\ c / 64 = 64 * (c / 4096) + (c / 64) mod 64 /\ (c / 64) mod 64 < 64
  /\ c / 4096 = 64 * (c / 262144) + (c / 4096) mod 64
  /\ (c / 4096) mod 64 < 64.
Proof.
  destruct (div_mod_64 c) as [H0 M0].
  destruct (div_mod_64 (c / 64)) as [H1 M1].
  destruct (div_mod_64 (c / 4096)) as [H2 M2].
  rewrite (N.Div0.div_div c 64 64) in H1.
  rewrite (N.Div0.div_div c 4096 64) in H2.
  change (64 * 64) with 4096 in H1. change (4096 * 64) with 262144 in H2.
  repeat split; assumption.
Qed.

Ltac true_test t :=
  replace t with true
    by (symmetry; unfold is_cont;
        repeat (apply andb_true_iff; split);
        try (apply N.leb_le; lia); try (apply N.ltb_lt; lia)).

Ltac false_test t :=
  replace t with false
    by (symmetry; apply andb_false_iff;
        try (left; apply N.leb_gt; lia); try (right; apply N.leb_gt; lia)).

(** Decoding a well-formed sequence of two, three and four bytes, given
    by the six-bit groups it carries. *)
Lemma decode_two q r rest :
  2 <= q < 32 -> r < 64 ->
  decode_from (0xC0 + q :: 0x80 + r :: rest)
  = cons (64 * q + r) <$> decode_from rest.
Proof.
  intros Hq Hr. cbn [decode_from].
  destruct (N.ltb_spec (0xC0 + q) 0x80); [lia|].
  true_test ((0xC2 <=? 0xC0 + q) && (0xC0 + q <=? 0xDF)).
  true_test (is_cont (0x80 + r)).
  replace ((0xC0 + q - 0xC0) * 64 + (0x80 + r - 0x80)) with (64 * q + r) by lia.
  reflexivity.
Qed.

Lemma decode_three q r1 r0 rest :
  q < 16 -> r1 < 64 -> r0 < 64 ->
  0x800 <= 4096 * q + 64 * r1 + r0 ->
  is_surrogate (4096 * q + 64 * r1 + r0) = false ->
  decode_from (0xE0 + q :: 0x80 + r1 :: 0x80 + r0 :: rest)
  = cons (4096 * q + 64 * r1 + r0) <$> decode_from rest.
Proof.
  intros Hq Hr1 Hr0 Hmin Hs. cbn [decode_from].
  destruct (N.ltb_spec (0xE0 + q) 0x80); [lia|].
  false_test ((0xC2 <=? 0xE0 + q) && (0xE0 + q <=? 0xDF)).
  true_test ((0xE0 <=? 0xE0 + q) && (0xE0 + q <=? 0xEF)).
  cbv zeta.
  replace ((0xE0 + q - 0xE0) * 4096 + (0x80 + r1 - 0x80) * 64
           + (0x80 + r0 - 0x80)) with (4096 * q + 64 * r1 + r0) by lia.
  true_test (is_cont (0x80 + r1)). true_test (is_cont (0x80 + r0)).
  rewrite Hs.
  destruct (N.leb_spec 0x800 (4096 * q + 64 * r1 + r0)); [reflexivity|lia].
Qed.

Lemma decode_four q r2 r1 r0 rest :
  q < 8 -> r2 < 64 -> r1 < 64 -> r0 < 64 ->
  0x10000 <= 262144 * q + 4096 * r2 + 64 * r1 + r0 < 0x110000 ->
  decode_from (0xF0 + q :: 0x80 + r2 :: 0x80 + r1 :: 0x80 + r0 :: rest)
  = cons (262144 * q + 4096 * r2 + 64 * r1 + r0) <$> decode_from rest.
Proof.
  intros Hq Hr2 Hr1 Hr0 Hc. cbn [decode_from].
  destruct (N.ltb_spec (0xF0 + q) 0x80); [lia|].
  false_test ((0xC2 <=? 0xF0 + q) && (0xF0 + q <=? 0xDF)).
  false_test ((0xE0 <=? 0xF0 + q) && (0xF0 + q <=? 0xEF)).
  true_test ((0xF0 <=? 0xF0 + q) && (0xF0 + q <=? 0xF4)).
  cbv zeta.
  replace ((0xF0 + q - 0xF0) * 262144 + (0x80 + r2 - 0x80) * 4096
           + (0x80 + r1 - 0x80) * 64 + (0x80 + r0 - 0x80))
    with (262144 * q + 4096 * r2 + 64 * r1 + r0) by lia.
  true_test (is_cont (0x80 + r2)). true_test (is_cont (0x80 + r1)).
  true_test (is_cont (0x80 + r0)).
  destruct (N.leb_spec 0x10000 (262144 * q + 4096 * r2 + 64 * r1 + r0));
    [|lia].
  destruct (N.ltb_spec (262144 * q + 4096 * r2 + 64 * r1 + r0) 0x110000);
    [reflexivity|lia].
Qed.

Lemma decode_encode_char c bs rest :
  encode_char c = Some bs ->
  decode_from (map Byte.to_N bs ++ rest) = cons c <$> decode_from rest.
Proof.
  unfold encode_char.
  destruct (six_bit_groups c) as (H0 & M0 & H1 & M1 & H2 & M2).
  revert H0 M0 H1 M1 H2 M2.
  generalize ((c / 4096) mod 64) as r2. generalize (c / 262144) as q3.
  generalize ((c / 64) mod 64) as r1. generalize (c / 4096) as q2.
  generalize (c mod 64) as r0. generalize (c / 64) as q1.
  intros q1 r0 q2 r1 q3 r2 H0 M0 H1 M1 H2 M2.
  destruct (N.ltb_spec c 0x80) as [L1|L1].
  { intros [= <-]. cbn [map app]. rewrite to_N_byte_of by lia.
    cbn [decode_from]. destruct (N.ltb_spec c 0x80); [reflexivity|lia]. }
  destruct (N.ltb_spec c 0x800) as [L2|L2].
  { intros [= <-]. cbn [map app]. rewrite !to_N_byte_of by lia.
    rewrite decode_two by lia. now rewrite <- H0. }
  destruct (N.ltb_spec c 0x10000) as [L3|L3].
  { destruct (is_surrogate c) eqn:Hs; [discriminate|].
    intros [= <-]. cbn [map app]. rewrite !to_N_byte_of by lia.
    assert (c = 4096 * q2 + 64 * r1 + r0) as Hc by lia.
    rewrite Hc in Hs. rewrite decode_three by (assumption || lia).
    now rewrite <- Hc. }
  destruct (N.ltb_spec c 0x110000) as [L4|L4]; [|discriminate].
  intros [= <-]. cbn [map app]. rewrite !to_N_byte_of by lia.
  assert (c = 262144 * q3 + 4096 * r2 + 64 * r1 + r0) as Hc by lia.
  rewrite decode_four by lia. now rewrite <- Hc.
Qed.

Lemma decode_encode s :
  forall bs, utf8_encode s = Some bs -> utf8_decode bs = Some s.
Proof.
  unfold utf8_decode.
  induction s as [|c s IH]; intros bs; cbn [utf8_encode].
  - now intros [= <-].
  - destruct (encode_char c) as [b1|] eqn:Hc; [|discriminate].
    destruct (utf8_encode s) as [b2|] eqn:Hs; [|discriminate].
    intros [= <-]. rewrite map_app, (decode_encode_char c b1) by assumption.
    now rewrite (IH b2).
Qed.

Lemma utf8_encode_inj s1 s2 bs :
  utf8_encode s1 = Some bs -> utf8_encode s2 = Some bs -> s1 = s2.
Proof.
  intros H1 H2. apply decode_encode in H1, H2. congruence.
Qed.

(** * The text determines the entries *)

Lemma hex_value_digit n : n < 16 -> hex_value (hex_digit n) = n.
Proof.
  intros Hn. unfold hex_value, hex_digit.
  destruct (N.ltb_spec n 10).
  - destruct (N.ltb_spec (48 + n) 58); lia.
  - destruct (N.ltb_spec (87 + n) 58); lia.
Qed.

Lemma unescape_escape c rest :
  unescape_head (escape_char c ++ rest) = Some (c, rest).
Proof.
  unfold escape_char, QUOTE, BACKSLASH.
  destruct (N.eqb_spec c 34) as [->|]; [reflexivity|].
  destruct (N.eqb_spec c 92) as [->|]; [reflexivity|].
  destruct (N.eqb_spec c 10) as [->|]; [reflexivity|].
  destruct (N.eqb_spec c 13) as [->|]; [reflexivity|].
  destruct (N.eqb_spec c 9) as [->|]; [reflexivity|].
  destruct (N.eqb_spec c 8) as [->|]; [reflexivity|].
  destruct (N.eqb_spec c 12) as [->|]; [reflexivity|].
  destruct (N.ltb_spec c 32) as [Hlt|Hge].
  - cbn [app unescape_head].
    change (BACKSLASH =? BACKSLASH) with true. change (117 =? 117) with true.
    cbv iota.
    assert (c / 16 < 16) by (apply N.Div0.div_lt_upper_bound; lia).
    assert (c mod 16 < 16) by (apply N.mod_lt; lia).
    rewrite !hex_value_digit by assumption.
    now rewrite <- (N.div_mod c 16) by lia.
  - cbn [app unescape_head]. unfold QUOTE, BACKSLASH.
    destruct (N.eqb_spec c 92); [lia|].
    destruct (N.eqb_spec c 34); [lia|reflexivity].
Qed.

Lemma escaped_string_inj w1 :
  forall w2 r1 r2,
    flat_map escape_char w1 ++ QUOTE :: r1
    = flat_map escape_char w2 ++ QUOTE :: r2 ->
    w1 = w2 /\ r1 = r2.
Proof.
  induction w1 as [|c1 w1 IH]; intros [|c2 w2] r1 r2 Heq; cbn [flat_map] in Heq.
  - now injection Heq as ->.
  - rewrite <- app_assoc in Heq. apply (f_equal unescape_head) in Heq.
    rewrite unescape_escape in Heq. discriminate.
  - rewrite <- app_assoc in Heq. apply (f_equal unescape_head) in Heq.
    rewrite unescape_escape in Heq. discriminate.
  - rewrite <- !app_assoc in Heq. apply (f_equal unescape_head) in Heq.
    rewrite !unescape_escape in Heq. injection Heq as -> Heq.
    destruct (IH _ _ _ Heq) as [-> ->]. now split.
Qed.

Lemma uint_chars_inj d1 :
  forall d2, uint_chars d1 = uint_chars d2 -> d1 = d2.
Proof.
  induction d1 as [|d1 IH|d1 IH|d1 IH|d1 IH|d1 IH|d1 IH|d1 IH|d1 IH|d1 IH|d1 IH];
    intros [|d2|d2|d2|d2|d2|d2|d2|d2|d2|d2] Heq;
    cbn [uint_chars] in Heq; try discriminate Heq; try reflexivity;
    injection Heq as Heq; f_equal; now apply IH.
Qed.

Lemma py_str_int_inj z1 z2 : py_str_int z1 = py_str_int z2 -> z1 = z2.
Proof.
  assert (forall p, Pos.to_uint p <> D0 Nil) as Hnz.
  { intros p Hp. pose proof (DecimalPos.Unsigned.of_to p) as Hof.
    rewrite Hp in Hof. discriminate Hof. }
  assert (forall p l, uint_chars (Pos.to_uint p) <> 45 :: l) as Hminus.
  { intros p l Hp. pose proof (uint_chars_digits (Pos.to_uint p)) as Hd.
    rewrite Hp in Hd. apply Forall_cons in Hd as [Hd _]. lia. }
  destruct z1 as [|p1|p1], z2 as [|p2|p2]; cbn [py_str_int]; intros Heq;
    try reflexivity; try discriminate Heq.
  - exfalso. apply (Hnz p2). symmetry. now apply uint_chars_inj.
  - exfalso. apply (Hnz p1). now apply uint_chars_inj.
  - f_equal. now apply DecimalPos.Unsigned.to_uint_inj, uint_chars_inj.
  - exfalso. now apply (Hminus p1 _ Heq).
  - exfalso. symmetry in Heq. now apply (Hminus p2 _ Heq).
  - injection Heq as Heq. f_equal.
    now apply DecimalPos.Unsigned.to_uint_inj, uint_chars_inj.
Qed.

Lemma py_str_int_no_brace z : Forall (fun c => c <> 125) (py_str_int z).
Proof.
  assert (forall d, Forall (fun c => c <> 125) (uint_chars d)) as Hd.
  { intros d. eapply Forall_impl; [apply uint_chars_digits|].
    simpl. intros. lia. }
  destruct z; cbn [py_str_int]; [now repeat constructor|apply Hd|].
  constructor; [lia|apply Hd].
Qed.

Lemma app_delim_inj {A} (x : A) (l1 : list A) :
  forall l2 r1 r2,
    Forall (fun y => y <> x) l1 -> Forall (fun y => y <> x) l2 ->
    l1 ++ x :: r1 = l2 ++ x :: r2 -> l1 = l2 /\ r1 = r2.
Proof.
  induction l1 as [|a l1 IH]; intros [|b l2] r1 r2 H1 H2 Heq; cbn [app] in Heq.
  - now injection Heq as ->.
  - injection Heq as -> _. apply Forall_cons in H2 as [H2 _]. congruence.
  - injection Heq as -> _. apply Forall_cons in H1 as [H1 _]. congruence.
  - injection Heq as -> Heq.
    apply Forall_cons in H1 as [_ H1]. apply Forall_cons in H2 as [_ H2].
    destruct (IH _ _ _ H1 H2 Heq) as [-> ->]. now split.
Qed.

Lemma spec_object_inj e1 e2 r1 r2 :
  spec_object e1 ++ r1 = spec_object e2 ++ r2 -> e1 = e2 /\ r1 = r2.
Proof.
  destruct e1 as [w1 f1], e2 as [w2 f2].
  unfold spec_object. cbn [word frequency]. rewrite <- !app_assoc. cbn [app].
  intros Heq. injection Heq as Heq.
  apply escaped_string_inj in Heq as [-> Heq].
  injection Heq as Heq.
  apply app_delim_inj in Heq as [Hf ->]; try apply py_str_int_no_brace.
  apply py_str_int_inj in Hf. now subst.
Qed.

Lemma spec_lines_unfold e es r :
  spec_lines (e :: es) ++ r =
  [SPACE; SPACE]
  ++ (spec_object e
      ++ (match es with [] => [LF] | _ => [44; LF] ++ spec_lines es end ++ r)).
Proof.
  destruct es as [|e' es].
  - rewrite spec_lines_one. now rewrite <- !app_assoc.
  - rewrite spec_lines_cons. now rewrite <- !app_assoc.
Qed.

Lemma spec_lines_inj es1 :
  forall es2, spec_lines es1 ++ [93] = spec_lines es2 ++ [93] -> es1 = es2.
Proof.
  induction es1 as [|e1 es1 IH]; intros [|e2 es2] Heq.
  - reflexivity.
  - rewrite spec_lines_unfold in Heq. discriminate Heq.
  - rewrite spec_lines_unfold in Heq. discriminate Heq.
  - rewrite !spec_lines_unfold in Heq. apply app_inv_head in Heq.
    apply spec_object_inj in Heq as [-> Heq].
    f_equal. destruct es1 as [|a es1], es2 as [|c es2];
      try reflexivity; try discriminate Heq.
    rewrite <- !app_assoc in Heq. apply (app_inv_head [44; LF]) in Heq.
    now apply IH.
Qed.

Lemma spec_array_inj es1 es2 : spec_array es1 = spec_array es2 -> es1 = es2.
Proof.
  unfold spec_array. intros Heq. apply app_inv_head in Heq.
  now apply spec_lines_inj.
Qed.

(** The bytes of the destination determine the entries. *)
Lemma array_bytes_inj es1 es2 out :
  utf8_encode (spec_array es1) = Some out ->
  utf8_encode (spec_array es2) = Some out ->
  es1 = es2.
Proof.
  intros H1 H2. apply spec_array_inj. now apply (utf8_encode_inj _ _ out).
Qed.

(** * Facts used by the claims on whole files *)



(** [omap] keeps the accepted elements, one result each, in order. *)
Lemma omap_filter_Forall2 {A B} (f : A -> option B) (l : list A) :
  Forall2 (fun x y => f x = Some y) (filter (fun x => is_Some (f x)) l)
    (omap f l).
Proof.
  induction l as [|x l IH]; [constructor|].
  cbn [omap list_omap]. rewrite filter_cons.
  destruct (f x) as [y|] eqn:Hfx.
  - rewrite decide_True by eauto. now constructor.
  - rewrite decide_False by (intros [? ?]; discriminate). exact IH.
Qed.

Lemma done_world_of o w : returns o = true -> o = Done (world_of o w).
Proof. destruct o; [reflexivity|discriminate]. Qed.

(** * The claims on the line parser *)



(** C6, as the code has it: a non-blank line with fewer than two tokens
    adds no entry and prints the MalformedLine warning with the 1-based
    line number and the line stripped of its leading and trailing
    whitespace, which is its only token; the loop then goes on with the
    next line. *)
Theorem C6_malformed_line_skipped :
  forall pre line post st,
    py_strip line <> [] ->
    (length (tokens line) < 2)%nat ->
    tokens line = [py_strip line]
    /\ read_loop 1 (pre ++ line :: post) st =
         read_loop (N.of_nat (length pre) + 2) post
           (fst (read_loop 1 pre st),
            snd (read_loop 1 pre st)
            ++ [MalformedLine (N.of_nat (length pre) + 1) (py_strip line)]).
Proof.
  intros pre line post st Hne Hlen. split; [now apply single_token|].
  rewrite read_loop_at. f_equal.
  destruct (read_loop 1 pre st) as [es o]. cbn [fst snd].
  rewrite read_body_nonblank by assumption.
  destruct (Nat.ltb_spec (length (tokens line)) 2); [reflexivity|lia].
Qed.

Lemma C6_witness :
  read_loop 1 ([u "le 100" ++ [LF]] ++ (u " bad" ++ [LF]) :: [u "la 90" ++ [LF]])
    ([], [])
  = ([to_dict {| word := u "le"; frequency := 100 |};
      to_dict {| word := u "la"; frequency := 90 |}],
     [MalformedLine 2 (u "bad")]).
Proof.
  rewrite (proj2 (C6_malformed_line_skipped [u "le 100" ++ [LF]]
                    (u " bad" ++ [LF]) [u "la 90" ++ [LF]] ([], [])
                    ltac:(vm_compute; discriminate) ltac:(vm_compute; lia))).
  vm_compute. reflexivity.
Defined.

(** C6, as stated, fails: the warning carries the stripped line, not the
    raw one.  The one-token line [foo] with its newline is reported
    without the newline. *)
Lemma C6_raw_content_counterexample :
  let line := u "foo" ++ [LF] in
  py_strip line <> [] /\ (length (tokens line) < 2)%nat /\
  read_body 1 line ([], []) = ([], [MalformedLine 1 (u "foo")]) /\
  read_body 1 line ([], []) <> ([], [MalformedLine 1 line]).
Proof.
  vm_compute. repeat split; try discriminate. lia.
Qed.

(** C7: a line with at least two tokens whose last token [int] refuses
    adds no entry and prints the InvalidFrequency warning with the
    1-based line number and that token; the loop then goes on with the
    next line.  The line [word abc] gives no entry. *)
Theorem C7_invalid_frequency_skipped :
  (forall pre line post st,
      (2 <= length (tokens line))%nat ->
      py_int (List.last (tokens line) []) = None ->
      read_loop 1 (pre ++ line :: post) st =
        read_loop (N.of_nat (length pre) + 2) post
          (fst (read_loop 1 pre st),
           snd (read_loop 1 pre st)
           ++ [InvalidFrequency (N.of_nat (length pre) + 1)
                 (List.last (tokens line) [])]))
  /\ (forall line_num entries out,
        read_body line_num (u "word abc" ++ [LF]) (entries, out) =
          (entries, out ++ [InvalidFrequency line_num (u "abc")])).
Proof.
  split.
  - intros pre line post st Hlen Hint.
    rewrite read_loop_at. f_equal.
    destruct (read_loop 1 pre st) as [es o]. cbn [fst snd].
    rewrite read_body_nonblank.
    + destruct (Nat.ltb_spec (length (tokens line)) 2); [lia|].
      now rewrite Hint.
    + apply tokens_not_blank. destruct (tokens line); simpl in Hlen; [lia|easy].
  - intros. rewrite read_body_nonblank by (vm_compute; discriminate).
    vm_compute. reflexivity.
Qed.

Lemma C7_witness :
  read_loop 1
    ([u "le 100" ++ [LF]] ++ (u "mot 1.5" ++ [LF]) :: [u "la 90" ++ [LF]])
    ([], [])
  = ([to_dict {| word := u "le"; frequency := 100 |};
      to_dict {| word := u "la"; frequency := 90 |}],
     [InvalidFrequency 2 (u "1.5")]).
Proof.
  rewrite (proj1 C7_invalid_frequency_skipped [u "le 100" ++ [LF]]
             (u "mot 1.5" ++ [LF]) [u "la 90" ++ [LF]] ([], [])).
  - vm_compute. reflexivity.
  - vm_compute. lia.
  - vm_compute. reflexivity.
Defined.




(** * The claims on whole files and on the runner *)



(** C4: the destination holds the array of the entries of the valid
    lines, one entry for each valid line and in the order of the lines:
    the entry list is paired off, position by position, with the lines
    that parse, so there are as many entries as valid lines, a repeated
    word gives repeated entries, and blank or rejected lines leave the
    order of the others as it is.  The bytes written are the array of
    no other entry list. *)
Theorem C4_entries_in_line_order :
  forall w txt_file json_file content text,
    files w !! txt_file = Some content ->
    utf8_decode content = Some text ->
    json_file ∉ readonly w ->
    let lines := text_lines text in
    let valid := filter (fun line => is_Some (parse_line line)) lines in
    exists w' out es,
      convert_txt_to_json txt_file json_file w = Done w'
      /\ files w' = <[json_file := out]> (files w)
      /\ utf8_encode (spec_array es) = Some out
      /\ (forall es', utf8_encode (spec_array es') = Some out -> es' = es)
      /\ es = omap parse_line lines
      /\ length es = length valid
      /\ Forall2 (fun line e => parse_line line = Some e) valid es.
Proof.
  intros w txt_file json_file content text Hsrc Hdec Hrw lines valid.
  destruct (convert_txt_to_json_done w txt_file json_file content text
              Hsrc Hdec Hrw) as (w' & out & Hdone & Hfiles & _ & Henc).
  exists w', out, (omap parse_line lines).
  pose proof (omap_filter_Forall2 parse_line lines) as H2.
  repeat split; try assumption.
  - intros es' Henc'. now apply (array_bytes_inj es' _ out).
  - symmetry. exact (Forall2_length _ _ _ H2).
Qed.

Lemma C4_witness :
  exists w' out,
    convert_txt_to_json (u "fr.txt") (u "fr.json") sample_world = Done w'
    /\ files w' = <[u "fr.json" := out]> (files sample_world)
    /\ utf8_encode (spec_array sample_entries) = Some out.
Proof.
  destruct (C4_entries_in_line_order sample_world (u "fr.txt") (u "fr.json")
              sample_source sample_text)
    as (w' & out & es & Hdone & Hfiles & Henc & _ & Hes & _).
  - vm_compute. reflexivity.
  - vm_compute. reflexivity.
  - vm_compute. discriminate.
  - exists w', out. split; [exact Hdone|]. split; [exact Hfiles|].
    rewrite <- Henc, Hes. vm_compute. reflexivity.
Defined.

(** C5: when no line of the source is valid, the destination holds
    exactly three bytes: the opening bracket, a newline, the closing
    bracket.  An empty source is such a source. *)
Theorem C5_no_entries_empty_array :
  forall w txt_file json_file,
    json_file ∉ readonly w ->
    (forall content text,
        files w !! txt_file = Some content ->
        utf8_decode content = Some text ->
        omap parse_line (text_lines text) = [] ->
        exists w',
          convert_txt_to_json txt_file json_file w = Done w'
          /\ files w' = <[json_file := [x5b; x0a; x5d]]> (files w))
    /\ (files w !! txt_file = Some [] ->
        exists w',
          convert_txt_to_json txt_file json_file w = Done w'
          /\ files w' = <[json_file := [x5b; x0a; x5d]]> (files w)).
Proof.
  intros w txt_file json_file Hrw.
  assert (forall content text,
             files w !! txt_file = Some content ->
             utf8_decode content = Some text ->
             omap parse_line (text_lines text) = [] ->
             exists w',
               convert_txt_to_json txt_file json_file w = Done w'
               /\ files w' = <[json_file := [x5b; x0a; x5d]]> (files w))
    as Hnone.
  { intros content text Hsrc Hdec Hes.
    destruct (convert_txt_to_json_done w txt_file json_file content text
                Hsrc Hdec Hrw) as (w' & out & Hdone & Hfiles & _ & Henc).
    exists w'. split; [exact Hdone|].
    rewrite Hes in Henc. vm_compute in Henc. injection Henc as <-.
    exact Hfiles. }
  split; [exact Hnone|].
  intros Hsrc. now apply (Hnone [] []).
Qed.

Lemma C5_witness :
  exists w',
    convert_txt_to_json (u "in.txt") (u "out.json") rejects_world = Done w'
    /\ files w' !! u "out.json" = Some [x5b; x0a; x5d].
Proof.
  destruct (proj1 (C5_no_entries_empty_array rejects_world (u "in.txt")
                     (u "out.json") ltac:(vm_compute; discriminate))
              rejects_source rejects_text)
    as (w' & Hdone & Hfiles).
  - vm_compute. reflexivity.
  - vm_compute. reflexivity.
  - vm_compute. reflexivity.
  - exists w'. split; [exact Hdone|]. rewrite Hfiles. apply lookup_insert_eq.
Defined.

(** C8: when the loop reaches a job whose source path does not exist,
    it prints the SourceNotFound line with that path, leaves every file
    as it is, and goes on with the remaining jobs. *)
Theorem C8_missing_source_skipped :
  forall base pre txt_file json_file post w w1,
    run_conversions base pre w = Done w1 ->
    files w1 !! os_path_join base txt_file = None ->
    run_conversions base (pre ++ (txt_file, json_file) :: post) w =
      run_conversions base post
        (World (files w1) (readonly w1)
           (stdout w1 ++ [SourceNotFound (os_path_join base txt_file)])).
Proof.
  intros base pre txt_file json_file post w w1 Hpre Hmiss.
  rewrite run_conversions_app, Hpre. cbn [run_conversions].
  now rewrite os_path_exists_false by assumption.
Qed.

Lemma C8_witness :
  match main missing_world with
  | Done w' =>
      files w' !! os_path_join base_dir (u "fr_base.json") = None
      /\ files w' !! os_path_join base_dir (u "pl_base.json")
         = Some (ascii_bytes "[" ++ [x0a] ++ ascii_bytes "  {" ++ [x22] ++ ascii_bytes "w" ++ [x22] ++ ascii_bytes ":"
                 ++ [x22] ++ ascii_bytes "nie" ++ [x22] ++ ascii_bytes "," ++ [x22] ++ ascii_bytes "f"
                 ++ [x22] ++ ascii_bytes ":5}" ++ [x0a] ++ ascii_bytes "]")
      /\ stdout w' !! 4%nat =
           Some (SourceNotFound (os_path_join base_dir (u "fr_50k.txt")))
  | Raised _ _ => False
  end.
Proof.
  unfold main.
  change conversions
    with (first_job ++ (u "fr_50k.txt", u "fr_base.json") :: later_jobs).
  rewrite (C8_missing_source_skipped base_dir first_job (u "fr_50k.txt")
             (u "fr_base.json") later_jobs missing_world
             (world_of (run_conversions base_dir first_job missing_world)
                missing_world)).
  - vm_compute. repeat split.
  - apply done_world_of. vm_compute. reflexivity.
  - vm_compute. reflexivity.
Defined.

(** C2, as the code has it: when the conversion of a job raises an
    error, as it does when its destination cannot be written, the error
    leaves the runner: the run ends with that error, the files are as
    the failing conversion left them, and no later job is run.  For a
    destination that cannot be opened for writing the error is
    PermissionError and the files are as the jobs before left them. *)
Theorem C2_write_failure_ends_run :
  forall base pre txt_file json_file post w w1,
    run_conversions base pre w = Done w1 ->
    is_Some (files w1 !! os_path_join base txt_file) ->
    (forall e fs,
        convert_txt_to_json (os_path_join base txt_file)
          (os_path_join base json_file) w1 = Raised e fs ->
        run_conversions base (pre ++ (txt_file, json_file) :: post) w =
          Raised e fs)
    /\ (forall content text,
          files w1 !! os_path_join base txt_file = Some content ->
          utf8_decode content = Some text ->
          os_path_join base json_file ∈ readonly w1 ->
          run_conversions base (pre ++ (txt_file, json_file) :: post) w =
            Raised PermissionError (files w1)).
Proof.
  intros base pre txt_file json_file post w w1 Hpre Hex.
  assert (forall e fs,
             convert_txt_to_json (os_path_join base txt_file)
               (os_path_join base json_file) w1 = Raised e fs ->
             run_conversions base (pre ++ (txt_file, json_file) :: post) w =
               Raised e fs) as Hraise.
  { intros e fs Hconv. rewrite run_conversions_app, Hpre.
    now apply run_conversions_raise. }
  split; [exact Hraise|].
  intros content text Hsrc Hdec Hro. apply Hraise.
  now apply (convert_txt_to_json_refused w1 _ _ content text).
Qed.

Lemma C2_witness :
  match main refused_world with
  | Done _ => False
  | Raised e fs =>
      e = PermissionError
      /\ files refused_world !! os_path_join base_dir (u "en_base.json") = None
      /\ is_Some (fs !! os_path_join base_dir (u "en_base.json"))
      /\ fs !! os_path_join base_dir (u "fr_base.json") = None
      /\ fs !! os_path_join base_dir (u "pl_base.json") = None
  end.
Proof.
  unfold main.
  change conversions
    with (first_job ++ (u "fr_50k.txt", u "fr_base.json") :: later_jobs).
  rewrite (proj2 (C2_write_failure_ends_run base_dir first_job (u "fr_50k.txt")
                    (u "fr_base.json") later_jobs refused_world
                    (world_of (run_conversions base_dir first_job refused_world)
                       refused_world)
                    ltac:(apply done_world_of; vm_compute; reflexivity)
                    ltac:(vm_compute; eauto))
             (ascii_bytes "le 100" ++ [x0a]) (u "le 100" ++ [LF])).
  - vm_compute. repeat split. eauto.
  - vm_compute. reflexivity.
  - vm_compute. reflexivity.
  - vm_compute. reflexivity.
Defined.

(** C2, as stated, fails: with the French destination refused, [main]
    ends with the error and the Polish job, the next one, is not run;
    its destination does not exist afterwards, although the conversion
    of the Polish list on its own returns and writes it. *)
Lemma C2_later_jobs_counterexample :
  let pl_txt := os_path_join base_dir (u "pl_50k.txt") in
  let pl_json := os_path_join base_dir (u "pl_base.json") in
  match main refused_world with
  | Done _ => False
  | Raised e fs => e = PermissionError /\ fs !! pl_json = None
  end
  /\ match convert_txt_to_json pl_txt pl_json refused_world with
     | Done w' => is_Some (files w' !! pl_json)
     | Raised _ _ => False
     end.
Proof.
  vm_compute. repeat split. eauto.
Qed.

(** * Whitespace around and inside a line *)

Lemma drop_while_split {A} (p : A -> bool) l :
  exists skipped,
    l = skipped ++ drop_while p l /\ Forall (fun x => p x = true) skipped.
Proof.
  induction l as [|y l (sk & IH & Hsk)]; simpl; [now exists []|].
  destruct (p y) eqn:Hy; [|now exists []].
  exists (y :: sk). split; [simpl; now rewrite <- IH|now constructor].
Qed.

Lemma drop_while_all {A} (p : A -> bool) l :
  Forall (fun x => p x = true) l -> drop_while p l = [].
Proof. induction 1 as [|x l Hx _ IH]; simpl; [reflexivity|now rewrite Hx]. Qed.

Lemma drop_while_app_all {A} (p : A -> bool) pad l :
  Forall (fun x => p x = true) pad -> drop_while p (pad ++ l) = drop_while p l.
Proof. induction 1 as [|x pad Hx _ IH]; simpl; [reflexivity|now rewrite Hx]. Qed.

(** Leading whitespace starts no token. *)
Lemma split_from_lead pad s :
  Forall (fun c => py_isspace c = true) pad ->
  split_from [] (pad ++ s) = split_from [] s.
Proof.
  induction 1 as [|c pad Hc _ IH]; [reflexivity|].
  cbn [app split_from]. now rewrite Hc.
Qed.

(** Trailing whitespace only ends the token being read. *)
Lemma split_from_trail s :
  forall cur pad,
    Forall (fun c => py_isspace c = true) pad ->
    split_from cur (s ++ pad) = split_from cur s.
Proof.
  induction s as [|c s IH]; intros cur pad Hpad.
  - cbn [app]. revert cur. induction Hpad as [|d pad Hd _ IHp]; intros cur;
      [reflexivity|].
    cbn [split_from]. rewrite Hd, IHp. cbn [split_from flush].
    now rewrite app_nil_r.
  - cbn [app split_from]. destruct (py_isspace c); now rewrite IH.
Qed.

Lemma py_lstrip_split s :
  exists pad, s = pad ++ py_lstrip s /\ Forall (fun c => py_isspace c = true) pad.
Proof. apply drop_while_split. Qed.

Lemma py_rstrip_split s :
  exists pad, s = py_rstrip s ++ pad /\ Forall (fun c => py_isspace c = true) pad.
Proof.
  unfold py_rstrip.
  destruct (drop_while_split py_isspace (rev s)) as (sk & Hs & Hsk).
  exists (rev sk). split.
  - rewrite <- rev_app_distr, <- Hs. now rewrite rev_involutive.
  - now apply Forall_rev.
Qed.

(** Stripping a line before splitting it changes nothing. *)
Lemma py_split_strip s : py_split (py_strip s) = py_split s.
Proof.
  unfold py_split, py_strip.
  destruct (py_lstrip_split s) as (p1 & H1 & Hp1).
  destruct (py_rstrip_split (py_lstrip s)) as (p2 & H2 & Hp2).
  rewrite H1 at 2. rewrite split_from_lead by assumption.
  rewrite H2 at 2. now rewrite split_from_trail.
Qed.

Lemma py_rstrip_app_all s pad :
  Forall (fun c => py_isspace c = true) pad -> py_rstrip (s ++ pad) = py_rstrip s.
Proof.
  intros Hpad. unfold py_rstrip. rewrite rev_app_distr.
  rewrite drop_while_app_all; [reflexivity|now apply Forall_rev].
Qed.

Lemma py_lstrip_app s pad :
  Forall (fun c => py_isspace c = true) pad ->
  py_lstrip (s ++ pad) = py_lstrip s ++ pad \/
  (py_lstrip (s ++ pad) = [] /\ py_lstrip s = []).
Proof.
  intros Hpad. unfold py_lstrip. induction s as [|c s IH]; cbn [app drop_while].
  - right. split; [now apply drop_while_all|reflexivity].
  - destruct (py_isspace c); [exact IH|now left].
Qed.

(** Whitespace around a line is stripped with it. *)
Lemma py_strip_padding pad1 line pad2 :
  Forall (fun c => py_isspace c = true) pad1 ->
  Forall (fun c => py_isspace c = true) pad2 ->
  py_strip (pad1 ++ line ++ pad2) = py_strip line.
Proof.
  intros H1 H2. unfold py_strip.
  replace (py_lstrip (pad1 ++ line ++ pad2)) with (py_lstrip (line ++ pad2))
    by (symmetry; now apply drop_while_app_all).
  destruct (py_lstrip_app line pad2 H2) as [->|[-> ->]];
    [now apply py_rstrip_app_all|reflexivity].
Qed.

(** The loop body reads its line only through [line.strip()]. *)
Lemma read_body_strip line_num line line' st :
  py_strip line = py_strip line' ->
  read_body line_num line st = read_body line_num line' st.
Proof. intros H. unfold read_body. now rewrite H. Qed.

(** X1: whitespace around a line is invisible to the loop body.
    Splitting the stripped line (lines 21 and 26) gives the tokens that
    splitting the line itself gives; and a line put between two runs of
    whitespace characters has the tokens of the line alone and takes
    the loop body to the same entries and the same console. *)
Theorem padding_is_ignored :
  forall pad1 pad2 line line_num st,
    Forall (fun c => py_isspace c = true) pad1 ->
    Forall (fun c => py_isspace c = true) pad2 ->
    tokens line = py_split line
    /\ tokens (pad1 ++ line ++ pad2) = tokens line
    /\ read_body line_num (pad1 ++ line ++ pad2) st = read_body line_num line st.
Proof.
  intros pad1 pad2 line line_num st H1 H2.
  split; [apply py_split_strip|]. split.
  - unfold tokens. now rewrite py_strip_padding.
  - apply read_body_strip. now apply py_strip_padding.
Qed.

Lemma padding_is_ignored_witness :
  read_body 4 ([9; 32] ++ u "New  York 1234" ++ [32; CR; LF]) ([], [])
  = read_body 4 (u "New  York 1234") ([], []).
Proof.
  apply (padding_is_ignored [9; 32] [32; CR; LF] (u "New  York 1234") 4 ([], [])).
  - repeat constructor.
  - repeat constructor.
Defined.

(** * Tokens and the words joined from them *)

Lemma flush_tokens cur :
  Forall (fun c => py_isspace c = false) cur -> Forall is_token (flush cur).
Proof.
  intros H. destruct cur; [constructor|].
  constructor; [|constructor]. split; [discriminate|exact H].
Qed.

Lemma split_from_tokens s :
  forall cur,
    Forall (fun c => py_isspace c = false) cur ->
    Forall is_token (split_from cur s).
Proof.
  induction s as [|c s IH]; intros cur Hcur; cbn [split_from].
  - now apply flush_tokens.
  - destruct (py_isspace c) eqn:Hc.
    + apply Forall_app. split; [now apply flush_tokens|]. apply IH. constructor.
    + apply IH. apply Forall_app. split; [assumption|now repeat constructor].
Qed.

Lemma py_split_tokens s : Forall is_token (py_split s).
Proof. apply split_from_tokens. constructor. Qed.

Lemma split_from_token_prefix t :
  forall cur s,
    Forall (fun c => py_isspace c = false) t ->
    split_from cur (t ++ s) = split_from (cur ++ t) s.
Proof.
  induction t as [|c t IH]; intros cur s Ht; cbn [app].
  - now rewrite app_nil_r.
  - apply Forall_cons in Ht as [Hc Ht]. cbn [split_from]. rewrite Hc.
    rewrite IH by assumption. now rewrite <- app_assoc.
Qed.

(** Splitting undoes joining with single spaces. *)
Lemma py_split_join toks :
  Forall is_token toks -> py_split (py_join [SPACE] toks) = toks.
Proof.
  unfold py_split.
  induction 1 as [|t toks [Hne Ht] Htoks IH]; [reflexivity|].
  destruct toks as [|t' toks].
  - cbn [py_join]. rewrite <- (app_nil_r t) at 1.
    rewrite split_from_token_prefix by assumption.
    cbn [app split_from]. now destruct t.
  - change (py_join [SPACE] (t :: t' :: toks))
      with (t ++ [SPACE] ++ py_join [SPACE] (t' :: toks)).
    rewrite split_from_token_prefix by assumption.
    cbn [app split_from]. change (py_isspace SPACE) with true. cbv iota.
    rewrite IH. now destruct t.
Qed.

Lemma py_join_no_other_space toks :
  Forall is_token toks ->
  Forall (fun c => py_isspace c = true -> c = SPACE) (py_join [SPACE] toks).
Proof.
  induction 1 as [|t toks [Hne Ht] Htoks IH]; [constructor|].
  assert (Forall (fun c => py_isspace c = true -> c = SPACE) t) as Ht'.
  { eapply Forall_impl; [exact Ht|]. simpl. intros c Hc Hc'. congruence. }
  destruct toks as [|t' toks]; [exact Ht'|].
  change (py_join [SPACE] (t :: t' :: toks))
    with (t ++ [SPACE] ++ py_join [SPACE] (t' :: toks)).
  apply Forall_app. split; [exact Ht'|].
  apply Forall_app. split; [now repeat constructor|exact IH].
Qed.

Lemma tokens_are_tokens line : Forall is_token (tokens line).
Proof. apply py_split_tokens. Qed.

Lemma py_join_nonempty toks :
  Forall is_token toks -> toks <> [] -> py_join [SPACE] toks <> [].
Proof.
  intros Htoks Hne. destruct toks as [|t toks]; [congruence|].
  apply Forall_cons in Htoks as [[Ht _] _].
  destruct toks as [|t' toks]; cbn [py_join]; [exact Ht|].
  destruct t as [|c t]; [now elim Ht|discriminate].
Qed.

Lemma list_last_app {A} (l l' : list A) d :
  l' <> [] -> List.last (l ++ l') d = List.last l' d.
Proof.
  intros Hne. induction l as [|x l IH]; [reflexivity|].
  cbn [app]. destruct (l ++ l') eqn:Heq; [|exact IH].
  apply app_eq_nil in Heq as [_ ->]. congruence.
Qed.

Lemma py_join_last toks :
  Forall is_token toks -> toks <> [] ->
  py_isspace (List.last (py_join [SPACE] toks) 0) = false.
Proof.
  induction 1 as [|t toks [Hne Ht] Htoks IH]; intros Hne'; [congruence|].
  destruct toks as [|t' toks].
  - cbn [py_join].
    destruct (@exists_last _ t Hne) as (l & x & ->).
    rewrite last_last. apply Forall_app in Ht as [_ Hx].
    now apply Forall_cons in Hx as [Hx _].
  - change (py_join [SPACE] (t :: t' :: toks))
      with (t ++ [SPACE] ++ py_join [SPACE] (t' :: toks)).
    rewrite app_assoc, list_last_app;
      [apply IH; discriminate|apply py_join_nonempty; [assumption|discriminate]].
Qed.

Lemma py_join_head toks c r :
  Forall is_token toks -> py_join [SPACE] toks = c :: r -> py_isspace c = false.
Proof.
  intros Htoks Heq. destruct toks as [|t toks]; [discriminate|].
  apply Forall_cons in Htoks as [[Hne Ht] _].
  destruct t as [|d t]; [congruence|]. apply Forall_cons in Ht as [Hd _].
  destruct toks; cbn [py_join app] in Heq; injection Heq as <- _; exact Hd.
Qed.

(** A text that begins and ends with a character that is not
    whitespace is its own strip. *)
Lemma py_strip_fixed c r :
  py_isspace c = false -> py_isspace (List.last (c :: r) 0) = false ->
  py_strip (c :: r) = c :: r.
Proof.
  intros Hc Hl. unfold py_strip, py_lstrip. cbn [drop_while]. rewrite Hc.
  unfold py_rstrip.
  destruct (@exists_last _ (c :: r) ltac:(discriminate)) as (l & x & Heq).
  rewrite Heq in *. rewrite last_last in Hl.
  rewrite rev_app_distr. cbn [rev app drop_while]. rewrite Hl.
  change (x :: rev l) with (rev [x] ++ rev l).
  now rewrite <- rev_app_distr, rev_involutive.
Qed.

Lemma py_strip_joined toks :
  Forall is_token toks -> py_strip (py_join [SPACE] toks) = py_join [SPACE] toks.
Proof.
  intros Htoks.
  destruct (py_join [SPACE] toks) as [|c r] eqn:Heq; [reflexivity|].
  apply py_strip_fixed; [now apply (py_join_head toks c r)|].
  rewrite <- Heq. apply py_join_last; [assumption|].
  intros ->. discriminate.
Qed.

(** X2: the word of an entry is normalised.  When a line yields an
    entry, none of its tokens is empty or holds a whitespace character,
    and the word joined from them (line 33) is not empty, splits back
    into the tokens before the frequency, is left as it is by [strip],
    and holds no whitespace character other than the spaces of the
    join. *)
Theorem word_is_normalised :
  forall line e,
    parse_line line = Some e ->
    Forall is_token (tokens line)
    /\ word e <> []
    /\ py_split (word e) = removelast (tokens line)
    /\ py_strip (word e) = word e
    /\ Forall (fun c => py_isspace c = true -> c = SPACE) (word e).
Proof.
  intros line e. unfold parse_line.
  destruct (Nat.leb_spec 2 (length (tokens line))) as [Hlen|]; [|discriminate].
  destruct (py_int (List.last (tokens line) [])); [|discriminate].
  intros [= <-]. cbn [word].
  pose proof (tokens_are_tokens line) as Htok.
  assert (Forall is_token (removelast (tokens line))) as Hinit
    by now apply removelast_Forall.
  split; [exact Htok|]. split; [|split; [|split]].
  - destruct (tokens line) as [|t [|t' toks]]; simpl in Hlen; try lia.
    apply Forall_cons in Htok as [[Hne _] _].
    change (removelast (t :: t' :: toks)) with (t :: removelast (t' :: toks)).
    destruct (removelast (t' :: toks)); cbn [py_join]; [exact Hne|].
    destruct t; [congruence|discriminate].
  - now apply py_split_join.
  - now apply py_strip_joined.
  - now apply py_join_no_other_space.
Qed.

Lemma word_is_normalised_witness :
  py_split (u "New York") = removelast (tokens (u "  New   York  1234" ++ [LF])).
Proof.
  apply (word_is_normalised (u "  New   York  1234" ++ [LF])
           {| word := u "New York"; frequency := 1234 |}).
  vm_compute. reflexivity.
Defined.

(** * Every line is skipped, converted or reported *)

Lemma is_blank_iff line :
  is_blank line = true <-> Forall (fun c => py_isspace c = true) line.
Proof.
  unfold is_blank. split.
  - destruct (py_strip line) eqn:Hstrip; [intros _|discriminate].
    unfold py_strip in Hstrip.
    destruct (py_lstrip_split line) as (p1 & H1 & Hp1).
    destruct (py_rstrip_split (py_lstrip line)) as (p2 & H2 & Hp2).
    rewrite Hstrip in H2. rewrite H1, H2. now apply Forall_app.
  - intros Hall. unfold py_strip, py_lstrip.
    now rewrite (drop_while_all _ _ Hall).
Qed.

Lemma read_body_split line_num line entries out :
  read_body line_num line (entries, out) =
  (entries ++ map to_dict (option_list (parse_line line)),
   out ++ option_list (line_warning line_num line)).
Proof.
  unfold parse_line, line_warning, is_blank.
  destruct (py_strip line) as [|c l] eqn:Hstrip.
  - rewrite read_body_blank by assumption.
    unfold tokens. rewrite Hstrip. cbn. now rewrite !app_nil_r.
  - rewrite read_body_nonblank by (rewrite Hstrip; discriminate).
    rewrite <- Hstrip.
    destruct (Nat.ltb_spec (length (tokens line)) 2) as [Hlt|Hge].
    + destruct (Nat.leb_spec 2 (length (tokens line))); [lia|].
      cbn. now rewrite app_nil_r.
    + destruct (Nat.leb_spec 2 (length (tokens line))); [|lia].
      destruct (py_int (List.last (tokens line) [])); cbn;
        now rewrite app_nil_r.
Qed.

Lemma read_loop_split lines :
  forall line_num entries out,
    read_loop line_num lines (entries, out) =
    (entries ++ map to_dict (omap parse_line lines),
     out ++ warnings_from line_num lines).
Proof.
  induction lines as [|line lines IH]; intros line_num entries out.
  - cbn. now rewrite !app_nil_r.
  - cbn [read_loop]. rewrite read_body_split, IH.
    cbn [omap list_omap warnings_from].
    destruct (parse_line line); cbn [option_list map app];
      now rewrite <- !app_assoc.
Qed.

(** A line is of one kind only. *)
Lemma line_kinds line_num line :
  (length (option_list (parse_line line))
   + length (option_list (line_warning line_num line))
   + (if is_blank line then 1 else 0) = 1)%nat.
Proof.
  unfold parse_line, line_warning, is_blank, tokens.
  destruct (py_strip line) as [|c l] eqn:Hstrip; [reflexivity|].
  destruct (Nat.ltb_spec (length (py_split (c :: l))) 2).
  - destruct (Nat.leb_spec 2 (length (py_split (c :: l)))); [lia|reflexivity].
  - destruct (Nat.leb_spec 2 (length (py_split (c :: l)))); [|lia].
    now destruct (py_int _).
Qed.

Lemma length_omap_option_list {A B} (f : A -> option B) x l :
  length (omap f (x :: l)) = (length (option_list (f x)) + length (omap f l))%nat.
Proof. cbn [omap list_omap]. now destruct (f x). Qed.

(** X3: every line is skipped, converted or reported, and only one of
    the three.  From any state the reading loop appends the dicts of the
    lines the parser accepts, in line order, to the entries and the
    warnings of the lines it rejects, numbered from the current line
    number, to the console; and the entries, the warnings and the blank
    lines together are as many as the lines. *)
Theorem every_line_is_accounted_for :
  forall lines line_num entries out,
    read_loop line_num lines (entries, out) =
      (entries ++ map to_dict (omap parse_line lines),
       out ++ warnings_from line_num lines)
    /\ (length (omap parse_line lines)
        + length (warnings_from line_num lines)
        + length (List.filter is_blank lines) = length lines)%nat.
Proof.
  intros lines line_num entries out. split; [apply read_loop_split|].
  clear entries out. revert line_num.
  induction lines as [|line lines IH]; intros line_num; [reflexivity|].
  rewrite length_omap_option_list. cbn [warnings_from List.filter length].
  rewrite length_app.
  pose proof (line_kinds line_num line) as Hk.
  specialize (IH (line_num + 1)).
  destruct (is_blank line); cbn [length]; lia.
Qed.

(** X4: a line of whitespace characters only is blank (lines 21 to
    23): the loop passes over it, adding no entry and printing nothing,
    and the lines after it are numbered counting it. *)
Theorem blank_line_is_skipped :
  forall pre line post st,
    Forall (fun c => py_isspace c = true) line ->
    is_blank line = true
    /\ read_loop 1 (pre ++ line :: post) st =
         read_loop (N.of_nat (length pre) + 2) post (read_loop 1 pre st).
Proof.
  intros pre line post st Hall.
  assert (is_blank line = true) as Hb by now apply is_blank_iff.
  split; [exact Hb|].
  rewrite read_loop_at. f_equal.
  destruct (read_loop 1 pre st) as [es o].
  apply read_body_blank. unfold is_blank in Hb.
  now destruct (py_strip line).
Qed.

Lemma blank_line_is_skipped_witness :
  read_loop 1 ([u "le 100" ++ [LF]] ++ [9; 0xa0; 0x3000; CR; LF] :: [u "x" ++ [LF]])
    ([], [])
  = ([to_dict {| word := u "le"; frequency := 100 |}],
     [MalformedLine 3 (u "x")]).
Proof.
  rewrite (proj2 (blank_line_is_skipped [u "le 100" ++ [LF]]
                    [9; 0xa0; 0x3000; CR; LF] [u "x" ++ [LF]] ([], [])
                    ltac:(repeat constructor))).
  vm_compute. reflexivity.
Defined.

(** * The conversion, case by case *)

(** The world a conversion returns with. *)
Lemma convert_txt_to_json_returns w txt_file json_file content text :
  files w !! txt_file = Some content ->
  utf8_decode content = Some text ->
  json_file ∉ readonly w ->
  exists out,
    utf8_encode (spec_array (omap parse_line (text_lines text))) = Some out
    /\ convert_txt_to_json txt_file json_file w =
       Done (World (<[json_file := out]> (files w)) (readonly w)
               (stdout w
                ++ [u "Reading " ++ txt_file ++ u "..."]
                ++ warnings_from 1 (text_lines text)
                ++ [u "Writing " ++ json_file ++ u " with "
                    ++ py_str_int
                         (Z.of_nat (length (omap parse_line (text_lines text))))
                    ++ u " entries...";
                    u "Conversion complete: "
                    ++ py_str_int
                         (Z.of_nat (length (omap parse_line (text_lines text))))
                    ++ u " entries written to " ++ json_file])).
Proof.
  intros Hsrc Hdec Hrw.
  destruct (utf8_encode_scalar _
              (spec_array_scalar _ (entries_scalar content text Hdec)))
    as [out Hout].
  exists out. split; [exact Hout|].
  unfold convert_txt_to_json. cbn [files stdout print].
  rewrite Hsrc. unfold read_lines. rewrite Hdec.
  cbn [fmap option_fmap option_map].
  rewrite read_loop_split. cbn [app].
  cbn [readonly files stdout print with_stdout store].
  rewrite bool_decide_eq_false_2 by assumption.
  rewrite (write_body_ok _ out Hout). rewrite length_map.
  unfold print, store, with_stdout. cbn [files readonly stdout].
  do 2 f_equal. rewrite <- !app_assoc. reflexivity.
Qed.

(** What a conversion that returns has gone through. *)
Lemma convert_txt_to_json_done_inv w txt_file json_file w' :
  convert_txt_to_json txt_file json_file w = Done w' ->
  exists content text out,
    (files w !! txt_file = Some content)
    /\ utf8_decode content = Some text
    /\ (json_file ∉ readonly w)
    /\ utf8_encode (spec_array (omap parse_line (text_lines text))) = Some out
    /\ files w' = <[json_file := out]> (files w)
    /\ readonly w' = readonly w.
Proof.
  intros Hdone.
  destruct (files w !! txt_file) as [content|] eqn:Hsrc.
  2: { unfold convert_txt_to_json in Hdone. cbn [files print] in Hdone.
       rewrite Hsrc in Hdone. discriminate. }
  destruct (utf8_decode content) as [text|] eqn:Hdec.
  2: { unfold convert_txt_to_json, read_lines in Hdone.
       cbn [files print] in Hdone. rewrite Hsrc, Hdec in Hdone. discriminate. }
  destruct (decide (json_file ∈ readonly w)) as [Hro|Hrw].
  { rewrite (convert_txt_to_json_refused w _ _ content text) in Hdone
      by assumption. discriminate. }
  destruct (convert_txt_to_json_returns w txt_file json_file content text
              Hsrc Hdec Hrw) as (out & Hout & Hconv).
  rewrite Hconv in Hdone. injection Hdone as <-.
  exists content, text, out. now repeat split.
Qed.

(** What a conversion that raises has gone through: it has not opened
    the destination. *)
Lemma convert_txt_to_json_raised_inv w txt_file json_file e fs :
  convert_txt_to_json txt_file json_file w = Raised e fs ->
  fs = files w
  /\ (e = FileNotFoundError /\ files w !! txt_file = None
      \/ e = UnicodeDecodeError
         /\ (exists content, files w !! txt_file = Some content
                             /\ utf8_decode content = None)
      \/ e = PermissionError /\ json_file ∈ readonly w).
Proof.
  intros Hraised.
  destruct (files w !! txt_file) as [content|] eqn:Hsrc.
  2: { unfold convert_txt_to_json in Hraised. cbn [files print] in Hraised.
       rewrite Hsrc in Hraised. injection Hraised as <- <-. eauto. }
  destruct (utf8_decode content) as [text|] eqn:Hdec.
  2: { unfold convert_txt_to_json, read_lines in Hraised.
       cbn [files print] in Hraised. rewrite Hsrc, Hdec in Hraised.
       injection Hraised as <- <-. split; [reflexivity|]. right. left. eauto. }
  destruct (decide (json_file ∈ readonly w)) as [Hro|Hrw].
  { rewrite (convert_txt_to_json_refused w _ _ content text) in Hraised
      by assumption. injection Hraised as <- <-. eauto. }
  destruct (convert_txt_to_json_returns w txt_file json_file content text
              Hsrc Hdec Hrw) as (out & Hout & Hconv).
  rewrite Hconv in Hraised. discriminate.
Qed.

Lemma convert_keeps_other_files w txt_file json_file path :
  path <> json_file ->
  outcome_files (convert_txt_to_json txt_file json_file w) !! path
  = files w !! path.
Proof.
  intros Hne.
  destruct (convert_txt_to_json txt_file json_file w) as [w'|e fs] eqn:Hconv.
  - apply convert_txt_to_json_done_inv in Hconv
      as (content & text & out & _ & _ & _ & _ & Hfiles & _).
    cbn [outcome_files]. rewrite Hfiles. now apply lookup_insert_ne.
  - apply convert_txt_to_json_raised_inv in Hconv as [-> _]. reflexivity.
Qed.

(** X5: the console of a conversion.  When the source exists and is
    UTF-8 and the destination can be written, the conversion returns
    and has printed, after what was on the console: the Reading line
    (line 18), the warnings of the rejected lines in line order, the
    Writing line (line 42) and the Conversion complete line (line 54),
    both with the number of accepted entries; nothing else. *)
Theorem conversion_console :
  forall w txt_file json_file content text,
    files w !! txt_file = Some content ->
    utf8_decode content = Some text ->
    json_file ∉ readonly w ->
    let count :=
      py_str_int (Z.of_nat (length (omap parse_line (text_lines text)))) in
    exists w',
      convert_txt_to_json txt_file json_file w = Done w'
      /\ stdout w' =
           stdout w
           ++ [u "Reading " ++ txt_file ++ u "..."]
           ++ warnings_from 1 (text_lines text)
           ++ [u "Writing " ++ json_file ++ u " with " ++ count
               ++ u " entries...";
               u "Conversion complete: " ++ count
               ++ u " entries written to " ++ json_file].
Proof.
  intros w txt_file json_file content text Hsrc Hdec Hrw count.
  destruct (convert_txt_to_json_returns w txt_file json_file content text
              Hsrc Hdec Hrw) as (out & _ & Hconv).
  eexists. split; [exact Hconv|reflexivity].
Qed.

Lemma conversion_console_witness :
  match convert_txt_to_json (u "fr.txt") (u "fr.json") sample_world with
  | Done w' =>
      stdout w' =
        [u "Reading fr.txt...";
         MalformedLine 4 (u "bad");
         InvalidFrequency 5 (u "abc");
         u "Writing fr.json with 4 entries...";
         u "Conversion complete: 4 entries written to fr.json"]
  | Raised _ _ => False
  end.
Proof.
  destruct (conversion_console sample_world (u "fr.txt") (u "fr.json")
              sample_source sample_text
              ltac:(vm_compute; reflexivity) ltac:(vm_compute; reflexivity)
              ltac:(vm_compute; discriminate)) as (w' & -> & ->).
  vm_compute. reflexivity.
Defined.

(** X6: whether a conversion returns or raises, every file other than
    its destination has the content it had before. *)
Theorem conversion_touches_only_destination :
  forall w txt_file json_file path,
    path <> json_file ->
    outcome_files (convert_txt_to_json txt_file json_file w) !! path
    = files w !! path.
Proof. intros. now apply convert_keeps_other_files. Qed.

Lemma conversion_touches_only_destination_witness :
  outcome_files (convert_txt_to_json (u "in.txt") (u "out.json") rejects_world)
    !! u "in.txt"
  = Some rejects_source.
Proof.
  rewrite (conversion_touches_only_destination rejects_world (u "in.txt")
             (u "out.json") (u "in.txt") ltac:(vm_compute; discriminate)).
  vm_compute. reflexivity.
Defined.



(** X8: converting again changes nothing.  After a conversion that
    returned, the same conversion, of a source that is not its own
    destination, returns again and leaves every file as the first one
    left it. *)
Theorem conversion_is_idempotent :
  forall w txt_file json_file w1,
    txt_file <> json_file ->
    convert_txt_to_json txt_file json_file w = Done w1 ->
    exists w2,
      convert_txt_to_json txt_file json_file w1 = Done w2
      /\ files w2 = files w1.
Proof.
  intros w txt_file json_file w1 Hne Hdone.
  apply convert_txt_to_json_done_inv in Hdone
    as (content & text & out & Hsrc & Hdec & Hrw & Hout & Hfiles & Hro).
  assert (files w1 !! txt_file = Some content) as Hsrc1
    by (rewrite Hfiles, lookup_insert_ne by congruence; exact Hsrc).
  assert (json_file ∉ readonly w1) as Hrw1 by now rewrite Hro.
  destruct (convert_txt_to_json_returns w1 txt_file json_file content text
              Hsrc1 Hdec Hrw1) as (out1 & Hout1 & Hconv).
  eexists. split; [exact Hconv|]. cbn [files].
  rewrite Hfiles. replace out1 with out by congruence.
  apply insert_insert_eq.
Qed.

Lemma conversion_is_idempotent_witness :
  exists w2,
    convert_txt_to_json (u "fr.txt") (u "fr.json")
      (world_of (convert_txt_to_json (u "fr.txt") (u "fr.json") sample_world)
         sample_world) = Done w2
    /\ files w2 =
       files (world_of (convert_txt_to_json (u "fr.txt") (u "fr.json")
                          sample_world) sample_world).
Proof.
  apply (conversion_is_idempotent sample_world (u "fr.txt") (u "fr.json")).
  - vm_compute. discriminate.
  - apply done_world_of. vm_compute. reflexivity.
Defined.

(** * Reading the destination back *)

Lemma newline_decode_no_cr s :
  Forall (fun c => c <> CR) s -> newline_decode false s = s.
Proof.
  induction 1 as [|c s Hc _ IH]; [reflexivity|].
  cbn [newline_decode]. destruct (N.eqb_spec c CR); [congruence|].
  rewrite andb_false_r. now rewrite IH.
Qed.

Lemma concat_flush cur : concat (flush cur) = cur.
Proof. destruct cur; [reflexivity|]. cbn. now rewrite app_nil_r. Qed.

(** The lines of a text, put end to end, are the text. *)
Lemma concat_lines_from s :
  forall cur, concat (lines_from cur s) = cur ++ s.
Proof.
  induction s as [|c s IH]; intros cur; cbn [lines_from].
  - now rewrite concat_flush, app_nil_r.
  - destruct (c =? LF); cbn [concat]; rewrite IH; now rewrite <- app_assoc.
Qed.

(** A text that does not end in a newline has one line more than it
    has newlines. *)
Lemma length_lines_from s x :
  x <> LF ->
  forall cur,
    length (lines_from cur (s ++ [x]))
    = S (length (List.filter (N.eqb LF) s)).
Proof.
  intros Hx. induction s as [|c s IH]; intros cur.
  - cbn [app lines_from List.filter length].
    destruct (N.eqb_spec x LF); [congruence|]. cbn [lines_from].
    now destruct cur.
  - cbn [app lines_from List.filter]. rewrite (N.eqb_sym LF c).
    destruct (c =? LF); cbn [length]; now rewrite IH.
Qed.

Lemma no_newline_in_object e : List.filter (N.eqb LF) (spec_object e) = [].
Proof.
  pose proof (spec_object_printable e) as Hp.
  induction Hp as [|c l Hc _ IH]; [reflexivity|].
  cbn [List.filter]. destruct (N.eqb_spec LF c) as [<-|]; [|exact IH].
  unfold LF in Hc. lia.
Qed.

Lemma newlines_in_spec_lines es :
  length (List.filter (N.eqb LF) (spec_lines es)) = length es.
Proof.
  induction es as [|e es IH]; [reflexivity|].
  destruct es as [|e' es].
  - rewrite spec_lines_one, !List.filter_app, no_newline_in_object. reflexivity.
  - rewrite spec_lines_cons, !List.filter_app, no_newline_in_object.
    rewrite !length_app, IH. reflexivity.
Qed.

Lemma spec_lines_no_cr es : Forall (fun c => c <> CR) (spec_lines es).
Proof.
  assert (forall e, Forall (fun c => c <> CR) (spec_object e)) as Hobj.
  { intros e. eapply Forall_impl; [apply spec_object_printable|].
    cbn. unfold CR. intros. lia. }
  induction es as [|e es IH]; [constructor|].
  destruct es as [|e' es].
  - rewrite spec_lines_one. apply Forall_app. split; [now repeat constructor|].
    apply Forall_app. split; [apply Hobj|now repeat constructor].
  - rewrite spec_lines_cons. apply Forall_app. split; [|exact IH].
    apply Forall_app. split; [now repeat constructor|].
    apply Forall_app. split; [apply Hobj|now repeat constructor].
Qed.

Lemma text_lines_spec_array es :
  concat (text_lines (spec_array es)) = spec_array es
  /\ length (text_lines (spec_array es)) = (length es + 2)%nat.
Proof.
  unfold text_lines, universal_newlines.
  rewrite newline_decode_no_cr.
  2: { unfold spec_array. apply Forall_app. split; [now repeat constructor|].
       apply Forall_app. split; [apply spec_lines_no_cr|now repeat constructor]. }
  split; [apply concat_lines_from|].
  unfold spec_array. rewrite app_assoc.
  rewrite length_lines_from by discriminate.
  rewrite List.filter_app, length_app, newlines_in_spec_lines.
  cbn. lia.
Qed.

(** X9: the destination read back.  The file a conversion writes is
    UTF-8 and decodes to the array of the accepted entries; read as
    lines the way the script reads a source, its lines put end to end
    are that array, and there is one line for each entry and one for
    each bracket (lines 44 to 52). *)
Theorem destination_reads_back :
  forall w txt_file json_file content text,
    files w !! txt_file = Some content ->
    utf8_decode content = Some text ->
    json_file ∉ readonly w ->
    let es := omap parse_line (text_lines text) in
    exists w' out lines,
      convert_txt_to_json txt_file json_file w = Done w'
      /\ files w' !! json_file = Some out
      /\ utf8_decode out = Some (spec_array es)
      /\ read_lines out = Some lines
      /\ concat lines = spec_array es
      /\ length lines = (length es + 2)%nat.
Proof.
  intros w txt_file json_file content text Hsrc Hdec Hrw es.
  destruct (convert_txt_to_json_returns w txt_file json_file content text
              Hsrc Hdec Hrw) as (out & Hout & Hconv).
  pose proof (decode_encode _ _ Hout) as Hback.
  destruct (text_lines_spec_array es) as [Hcat Hlen].
  eexists _, out, (text_lines (spec_array es)).
  split; [exact Hconv|]. cbn [files].
  split; [apply lookup_insert_eq|]. split; [exact Hback|].
  split; [|split; assumption].
  unfold read_lines. fold es in Hback. now rewrite Hback.
Qed.

Lemma destination_reads_back_witness :
  match convert_txt_to_json (u "fr.txt") (u "fr.json") sample_world with
  | Done w' =>
      exists out lines,
        files w' !! u "fr.json" = Some out
        /\ read_lines out = Some lines
        /\ concat lines = spec_array sample_entries
        /\ length lines = 6%nat
  | Raised _ _ => False
  end.
Proof.
  destruct (destination_reads_back sample_world (u "fr.txt") (u "fr.json")
              sample_source sample_text
              ltac:(vm_compute; reflexivity) ltac:(vm_compute; reflexivity)
              ltac:(vm_compute; discriminate))
    as (w' & out & lines & -> & Hf & _ & Hr & Hcat & Hlen).
  exists out, lines. repeat split; assumption.
Defined.

(** * The runner, job by job *)

(** No job writes to a file that is not its destination. *)
Lemma run_keeps_other_files base jobs :
  forall w path,
    Forall (fun job => path <> os_path_join base (snd job)) jobs ->
    outcome_files (run_conversions base jobs w) !! path = files w !! path.
Proof.
  induction jobs as [|[txt json] jobs IH]; intros w path Hall.
  - reflexivity.
  - apply Forall_cons in Hall as [Hne Hall]. cbn [snd] in Hne.
    cbn [run_conversions].
    destruct (negb (os_path_exists (os_path_join base txt) w)).
    + now rewrite IH.
    + pose proof (convert_keeps_other_files w (os_path_join base txt)
                    (os_path_join base json) path Hne) as Hkeep.
      destruct (convert_txt_to_json _ _ w) as [w'|e fs];
        cbn [outcome_files] in Hkeep; [|exact Hkeep].
      now rewrite IH.
Qed.

(** X10: when no job has its source, the runner returns, no file is
    changed, and the console gets one not-found line for each job, in
    the order of the jobs, and nothing else (lines 74 to 76). *)
Theorem all_sources_missing :
  forall base jobs w,
    Forall (fun job => files w !! os_path_join base (fst job) = None) jobs ->
    run_conversions base jobs w =
      Done (World (files w) (readonly w)
              (stdout w
               ++ map (fun job => SourceNotFound (os_path_join base (fst job)))
                    jobs)).
Proof.
  intros base jobs. induction jobs as [|[txt json] jobs IH]; intros w Hall.
  - cbn. rewrite app_nil_r. now destruct w.
  - apply Forall_cons in Hall as [Hmiss Hall]. cbn [fst] in Hmiss.
    cbn [run_conversions]. rewrite os_path_exists_false by assumption.
    cbn [negb]. rewrite IH by exact Hall.
    cbn [print files readonly stdout map fst]. unfold SourceNotFound.
    now rewrite <- app_assoc.
Qed.

Lemma all_sources_missing_witness :
  match main (World ∅ ∅ []) with
  | Done w' =>
      files w' = ∅
      /\ stdout w' =
           map (fun job => SourceNotFound (os_path_join base_dir (fst job)))
             conversions
  | Raised _ _ => False
  end.
Proof.
  unfold main.
  rewrite (all_sources_missing base_dir conversions (World ∅ ∅ [])).
  - split; reflexivity.
  - repeat constructor.
Defined.

(** X11: whether the run returns or raises, a file that is not the
    destination of one of the jobs has the content it had before. *)
Theorem runner_touches_only_destinations :
  forall base jobs w path,
    Forall (fun job => path <> os_path_join base (snd job)) jobs ->
    outcome_files (run_conversions base jobs w) !! path = files w !! path.
Proof. intros. now apply run_keeps_other_files. Qed.

Lemma runner_touches_only_destinations_witness :
  outcome_files (main refused_world) !! os_path_join base_dir (u "fr_50k.txt")
  = Some (ascii_bytes "le 100" ++ [x0a]).
Proof.
  unfold main.
  rewrite (runner_touches_only_destinations base_dir conversions refused_world
             (os_path_join base_dir (u "fr_50k.txt"))).
  - vm_compute. reflexivity.
  - repeat constructor; vm_compute; discriminate.
Defined.

(** X12: a job that succeeds.  When the jobs before it have returned,
    its source exists and is UTF-8 and its destination can be written,
    the conversion of the job returns, the destination holds the array
    of the entries of the source, and the run goes on with the jobs
    after it, once an empty line is printed (lines 78 and 79). *)
Theorem job_success_continues :
  forall base pre txt_file json_file post w w1 content text,
    run_conversions base pre w = Done w1 ->
    files w1 !! os_path_join base txt_file = Some content ->
    utf8_decode content = Some text ->
    os_path_join base json_file ∉ readonly w1 ->
    exists out w2,
      utf8_encode (spec_array (omap parse_line (text_lines text))) = Some out
      /\ convert_txt_to_json (os_path_join base txt_file)
           (os_path_join base json_file) w1 = Done w2
      /\ files w2 = <[os_path_join base json_file := out]> (files w1)
      /\ run_conversions base (pre ++ (txt_file, json_file) :: post) w =
           run_conversions base post
             (World (files w2) (readonly w1) (stdout w2 ++ [[]])).
Proof.
  intros base pre txt_file json_file post w w1 content text
    Hpre Hsrc Hdec Hrw.
  destruct (convert_txt_to_json_returns w1 _ _ content text Hsrc Hdec Hrw)
    as (out & Hout & Hconv).
  eexists out, _. split; [exact Hout|]. split; [exact Hconv|].
  split; [reflexivity|].
  rewrite run_conversions_app, Hpre. cbn [run_conversions].
  rewrite os_path_exists_true by eauto. cbn [negb]. now rewrite Hconv.
Qed.

Lemma job_success_continues_witness :
  match main missing_world with
  | Done w' =>
      files w' !! os_path_join base_dir (u "en_base.json")
      = Some (ascii_bytes "[" ++ [x0a] ++ ascii_bytes "  {" ++ [x22]
              ++ ascii_bytes "w" ++ [x22] ++ ascii_bytes ":" ++ [x22]
              ++ ascii_bytes "the" ++ [x22] ++ ascii_bytes "," ++ [x22]
              ++ ascii_bytes "f" ++ [x22] ++ ascii_bytes ":9}" ++ [x0a]
              ++ ascii_bytes "]")
  | Raised _ _ => False
  end.
Proof.
  unfold main.
  change conversions with ([] ++ (u "en_50k.txt", u "en_base.json")
                              :: tail conversions).
  destruct (job_success_continues base_dir [] (u "en_50k.txt")
              (u "en_base.json") (tail conversions) missing_world missing_world
              (ascii_bytes "the 9" ++ [x0a]) (u "the 9" ++ [LF])
              eq_refl ltac:(vm_compute; reflexivity)
              ltac:(vm_compute; reflexivity) ltac:(vm_compute; discriminate))
    as (out & w2 & _ & Hconv & _ & ->).
  apply (f_equal (fun o => world_of o missing_world)) in Hconv.
  cbn [world_of] in Hconv. subst w2.
  vm_compute. reflexivity.
Defined.




(** * A run in which every job succeeds *)

(** X14: a run in which every job succeeds.  When every source exists
    and is UTF-8, no destination is refused, no source is the
    destination of a job and no two jobs have the same destination, the
    run returns and every destination holds the array of the entries
    of the source of its own job. *)
Theorem every_job_converted :
  forall base jobs w,
    Forall (fun job =>
              exists content text,
                files w !! os_path_join base (fst job) = Some content
                /\ utf8_decode content = Some text) jobs ->
    Forall (fun job => os_path_join base (snd job) ∉ readonly w) jobs ->
    Forall (fun job =>
              Forall (fun job' =>
                        os_path_join base (fst job)
                        <> os_path_join base (snd job')) jobs) jobs ->
    NoDup (map (fun job => os_path_join base (snd job)) jobs) ->
    exists w',
      run_conversions base jobs w = Done w'
      /\ Forall (fun job =>
                   forall content text,
                     files w !! os_path_join base (fst job) = Some content ->
                     utf8_decode content = Some text ->
                     exists out,
                       utf8_encode
                         (spec_array (omap parse_line (text_lines text)))
                       = Some out
                       /\ files w' !! os_path_join base (snd job) = Some out)
           jobs.
Proof.
  intros base jobs.
  induction jobs as [|[txt json] jobs IH]; intros w Hsrc Hrw Hdisj Hdup.
  - exists w. split; [reflexivity|constructor].
  - apply Forall_cons in Hsrc as [(content & text & Hc & Hd) Hsrc].
    apply Forall_cons in Hrw as [Hw Hrw].
    apply Forall_cons in Hdisj as [Hhead Hdisj].
    apply Forall_cons in Hhead as [_ Hhead].
    cbn [map] in Hdup. apply NoDup_cons in Hdup as [Hfresh Hdup].
    cbn [fst snd] in *.
    destruct (convert_txt_to_json_returns w _ _ content text Hc Hd Hw)
      as (out & Hout & Hconv).
    cbn [run_conversions]. rewrite os_path_exists_true by eauto.
    cbn [negb]. rewrite Hconv.
    set (w1 := print [] _).
    assert (forall job, job ∈ jobs ->
              files w1 !! os_path_join base (fst job)
              = files w !! os_path_join base (fst job)) as Hsame.
    { intros job Hin. cbn [w1 print files]. apply lookup_insert_ne.
      rewrite Forall_forall in Hdisj. specialize (Hdisj job Hin).
      apply Forall_cons in Hdisj as [Hne _]. cbn [snd] in Hne. congruence. }
    destruct (IH w1) as (w' & Hrun & Hall).
    { rewrite Forall_forall in Hsrc |- *. intros job Hin.
      destruct (Hsrc job Hin) as (c & t & Hc' & Hd').
      exists c, t. split; [now rewrite Hsame|exact Hd']. }
    { exact Hrw. }
    { rewrite Forall_forall in Hdisj |- *. intros job Hin.
      specialize (Hdisj job Hin). now apply Forall_cons in Hdisj as [_ Hdisj]. }
    { exact Hdup. }
    exists w'. split; [exact Hrun|]. constructor.
    + cbn [fst snd]. intros content' text' Hc' Hd'.
      assert (text' = text) as -> by congruence.
      exists out. split; [exact Hout|].
      pose proof (run_keeps_other_files base jobs w1 (os_path_join base json))
        as Hkeep.
      rewrite Hrun in Hkeep. cbn [outcome_files] in Hkeep. rewrite Hkeep.
      * cbn [w1 print files]. apply lookup_insert_eq.
      * rewrite Forall_forall. intros job Hin Heq. apply Hfresh.
        rewrite Heq. apply list_elem_of_fmap. now exists job.
    + rewrite Forall_forall in Hall |- *. intros job Hin content' text' Hc' Hd'.
      apply (Hall job Hin content' text'); [|exact Hd'].
      now rewrite Hsame.
Qed.

Lemma every_job_converted_witness :
  exists w',
    run_conversions base_dir two_jobs missing_world = Done w'
    /\ files w' !! os_path_join base_dir (u "pl_base.json")
       = Some (ascii_bytes "[" ++ [x0a] ++ ascii_bytes "  {" ++ [x22]
               ++ ascii_bytes "w" ++ [x22] ++ ascii_bytes ":" ++ [x22]
               ++ ascii_bytes "nie" ++ [x22] ++ ascii_bytes "," ++ [x22]
               ++ ascii_bytes "f" ++ [x22] ++ ascii_bytes ":5}" ++ [x0a]
               ++ ascii_bytes "]").
Proof.
  destruct (every_job_converted base_dir two_jobs missing_world)
    as (w' & Hrun & Hall).
  - repeat constructor.
    + exists (ascii_bytes "the 9" ++ [x0a]), (u "the 9" ++ [LF]).
      split; vm_compute; reflexivity.
    + exists (ascii_bytes "nie 5" ++ [x0a]), (u "nie 5" ++ [LF]).
      split; vm_compute; reflexivity.
  - repeat constructor; vm_compute; discriminate.
  - repeat constructor; vm_compute; discriminate.
  - apply (bool_decide_unpack _). vm_compute. exact I.
  - exists w'. split; [exact Hrun|].
    apply Forall_cons in Hall as [_ Hall]. apply Forall_cons in Hall as [Hpl _].
    destruct (Hpl (ascii_bytes "nie 5" ++ [x0a]) (u "nie 5" ++ [LF]))
      as (out & Hout & Hfile).
    + vm_compute. reflexivity.
    + vm_compute. reflexivity.
    + cbn [snd] in Hfile. rewrite Hfile, <- Hout. vm_compute. reflexivity.
Defined.

(** * One source after another *)

Lemma decode_from_app n :
  forall b1 b2 t1,
    (length b1 <= n)%nat ->
    decode_from b1 = Some t1 ->
    decode_from (b1 ++ b2) = app t1 <$> decode_from b2.
Proof.
  induction n as [|n IH]; intros b1 b2 t1 Hlen Hdec.
  - destruct b1; [|simpl in Hlen; lia]. injection Hdec as <-.
    cbn [app]. now destruct (decode_from b2).
  - destruct b1 as [|b0 r0].
    { injection Hdec as <-. cbn [app]. now destruct (decode_from b2). }
    cbn [app decode_from] in Hdec |- *. simpl in Hlen.
    destruct (b0 <? 0x80).
    { destruct (decode_from r0) as [t|] eqn:Ht; [|discriminate].
      injection Hdec as <-. rewrite (IH r0 b2 t) by (lia || assumption).
      now destruct (decode_from b2). }
    destruct ((0xC2 <=? b0) && (b0 <=? 0xDF)).
    { destruct r0 as [|b1 r1]; [discriminate|]. cbn [app].
      destruct (is_cont b1); [|discriminate].
      destruct (decode_from r1) as [t|] eqn:Ht; [|discriminate].
      injection Hdec as <-.
      rewrite (IH r1 b2 t) by (simpl in Hlen; lia || assumption).
      now destruct (decode_from b2). }
    destruct ((0xE0 <=? b0) && (b0 <=? 0xEF)).
    { destruct r0 as [|b1 [|b2' r2]]; try discriminate. cbn [app].
      cbv zeta in Hdec |- *.
      match type of Hdec with (if ?c then _ else _) = _ =>
        destruct c end; [|discriminate].
      destruct (decode_from r2) as [t|] eqn:Ht; [|discriminate].
      injection Hdec as <-.
      rewrite (IH r2 b2 t) by (simpl in Hlen; lia || assumption).
      now destruct (decode_from b2). }
    destruct ((0xF0 <=? b0) && (b0 <=? 0xF4)); [|discriminate].
    destruct r0 as [|b1 [|b2' [|b3 r3]]]; try discriminate. cbn [app].
    cbv zeta in Hdec |- *.
    match type of Hdec with (if ?c then _ else _) = _ =>
      destruct c end; [|discriminate].
    destruct (decode_from r3) as [t|] eqn:Ht; [|discriminate].
    injection Hdec as <-.
    rewrite (IH r3 b2 t) by (simpl in Hlen; lia || assumption).
    now destruct (decode_from b2).
Qed.

(** Two files that decode, put end to end, decode to the two texts put
    end to end. *)
Lemma utf8_decode_app c1 c2 t1 t2 :
  utf8_decode c1 = Some t1 -> utf8_decode c2 = Some t2 ->
  utf8_decode (c1 ++ c2) = Some (t1 ++ t2).
Proof.
  unfold utf8_decode. intros H1 H2. rewrite map_app.
  rewrite (decode_from_app _ _ _ t1 (le_n _) H1). now rewrite H2.
Qed.

Lemma newline_decode_app_lf s :
  forall pendingcr t,
    newline_decode pendingcr (s ++ LF :: t)
    = newline_decode pendingcr (s ++ [LF]) ++ newline_decode false t.
Proof.
  induction s as [|c s IH]; intros p t; cbn [app newline_decode].
  - change (LF =? CR) with false. change (LF =? LF) with true. cbv iota.
    now destruct p.
  - destruct (c =? CR); [now rewrite IH|].
    destruct ((c =? LF) && p); now rewrite IH.
Qed.

Lemma newline_decode_ends_lf s :
  forall pendingcr,
    (newline_decode pendingcr (s ++ [LF]) = [] /\ pendingcr = true)
    \/ exists r, newline_decode pendingcr (s ++ [LF]) = r ++ [LF].
Proof.
  induction s as [|c s IH]; intros p; cbn [app newline_decode].
  - change (LF =? CR) with false. change (LF =? LF) with true. cbv iota.
    destruct p; [now left|right; now exists []].
  - destruct (c =? CR).
    { right. destruct (IH true) as [[-> _]|[r ->]];
        [now exists []|now exists (LF :: r)]. }
    destruct ((c =? LF) && p).
    { right. destruct (IH false) as [[_ ?]|Hr]; [discriminate|exact Hr]. }
    right. destruct (IH false) as [[_ ?]|[r ->]]; [discriminate|].
    now exists (c :: r).
Qed.

Lemma lines_from_app_lf r :
  forall cur t,
    lines_from cur (r ++ LF :: t)
    = lines_from cur (r ++ [LF]) ++ lines_from [] t.
Proof.
  induction r as [|c r IH]; intros cur t; cbn [app lines_from].
  - change (LF =? LF) with true. reflexivity.
  - destruct (c =? LF); now rewrite IH.
Qed.

(** The lines of a text that ends in a newline, followed by another
    text, are the lines of the one and then of the other. *)
Lemma text_lines_app t1 t2 :
  text_lines ((t1 ++ [LF]) ++ t2)
  = text_lines (t1 ++ [LF]) ++ text_lines t2.
Proof.
  unfold text_lines, universal_newlines.
  rewrite <- app_assoc. cbn [app]. rewrite newline_decode_app_lf.
  destruct (newline_decode_ends_lf t1 false) as [[_ ?]|[r ->]]; [discriminate|].
  rewrite <- app_assoc. cbn [app]. apply lines_from_app_lf.
Qed.

(** X15: one source after another.  When a file that ends in a
    newline is followed by a second file, the lines of the whole are
    the lines of the first followed by the lines of the second, and
    converting the whole writes the array of the entries of the first
    followed by the entries of the second. *)
Theorem concatenated_sources :
  forall c1 c2 t1 t2,
    utf8_decode c1 = Some (t1 ++ [LF]) ->
    utf8_decode c2 = Some t2 ->
    let es1 := omap parse_line (text_lines (t1 ++ [LF])) in
    let es2 := omap parse_line (text_lines t2) in
    read_lines (c1 ++ c2) = Some (text_lines (t1 ++ [LF]) ++ text_lines t2)
    /\ forall w txt_file json_file,
         files w !! txt_file = Some (c1 ++ c2) ->
         json_file ∉ readonly w ->
         exists w' out,
           convert_txt_to_json txt_file json_file w = Done w'
           /\ files w' !! json_file = Some out
           /\ utf8_encode (spec_array (es1 ++ es2)) = Some out.
Proof.
  intros c1 c2 t1 t2 H1 H2 es1 es2.
  pose proof (utf8_decode_app _ _ _ _ H1 H2) as H12.
  split.
  - unfold read_lines. rewrite H12. cbn [fmap option_fmap option_map].
    now rewrite text_lines_app.
  - intros w txt_file json_file Hsrc Hrw.
    destruct (convert_txt_to_json_returns w txt_file json_file _ _
                Hsrc H12 Hrw) as (out & Hout & Hconv).
    eexists _, out. split; [exact Hconv|]. cbn [files].
    split; [apply lookup_insert_eq|].
    rewrite text_lines_app, omap_app in Hout. exact Hout.
Qed.

Lemma concatenated_sources_witness :
  read_lines ((ascii_bytes "the 9" ++ [x0a]) ++ (ascii_bytes "nie 5" ++ [x0a]))
  = Some [u "the 9" ++ [LF]; u "nie 5" ++ [LF]].
Proof.
  apply (concatenated_sources (ascii_bytes "the 9" ++ [x0a])
           (ascii_bytes "nie 5" ++ [x0a]) (u "the 9") (u "nie 5" ++ [LF])).
  - vm_compute. reflexivity.
  - vm_compute. reflexivity.
Defined.

(** * A byte order mark before the first line *)

Lemma split_from_cons_cur x s :
  forall cur,
    cur <> [] ->
    exists t rest,
      split_from cur s = t :: rest
      /\ split_from (x :: cur) s = (x :: t) :: rest.
Proof.
  induction s as [|c s IH]; intros cur Hcur; cbn [split_from].
  - destruct cur; [congruence|]. cbn. eauto.
  - destruct (py_isspace c).
    + destruct cur; [congruence|]. cbn. eauto.
    + change ((x :: cur) ++ [c]) with (x :: (cur ++ [c])).
      apply IH. now destruct cur.
Qed.

Lemma lines_from_cons_cur x s :
  forall cur l ls,
    lines_from cur s = l :: ls ->
    lines_from (x :: cur) s = (x :: l) :: ls.
Proof.
  induction s as [|c s IH]; intros cur l ls; cbn [lines_from].
  - destruct cur; [discriminate|]. cbn. now intros [= <- <-].
  - destruct (c =? LF).
    + now intros [= <- <-].
    + change ((x :: cur) ++ [c]) with (x :: (cur ++ [c])). apply IH.
Qed.

(** A character that is not whitespace, put before a line that starts
    with one, joins the first token. *)
Lemma tokens_cons c d l :
  py_isspace c = false -> py_isspace d = false ->
  exists t rest,
    tokens (d :: l) = t :: rest
    /\ tokens (c :: d :: l) = (c :: t) :: rest.
Proof.
  intros Hc Hd. unfold tokens. rewrite !py_split_strip. unfold py_split.
  cbn [split_from]. rewrite Hc, Hd. cbn [app].
  apply split_from_cons_cur. discriminate.
Qed.

Lemma parse_line_cons c d l e :
  py_isspace c = false -> py_isspace d = false ->
  parse_line (d :: l) = Some e ->
  parse_line (c :: d :: l)
  = Some {| word := c :: word e; frequency := frequency e |}.
Proof.
  intros Hc Hd. unfold parse_line.
  destruct (tokens_cons c d l Hc Hd) as (t & rest & -> & ->).
  destruct rest as [|t' rest]; [discriminate|].
  change (2 <=? length ((c :: t) :: t' :: rest))%nat with true.
  change (2 <=? length (t :: t' :: rest))%nat with true. cbv iota.
  change (List.last ((c :: t) :: t' :: rest) [])
    with (List.last (t :: t' :: rest) []).
  destruct (py_int (List.last (t :: t' :: rest) [])); [|discriminate].
  change (removelast ((c :: t) :: t' :: rest))
    with ((c :: t) :: removelast (t' :: rest)).
  change (removelast (t :: t' :: rest)) with (t :: removelast (t' :: rest)).
  generalize (removelast (t' :: rest)).
  intros [|p ps] [= <-]; reflexivity.
Qed.

(** X16: a byte order mark is kept.  The source is opened as utf-8
    (line 19), which does not drop the three bytes EF BB BF at the
    start of a file: they are read as the character U+FEFF, which
    [strip] and [split] do not take for whitespace, so that it is the
    first character of the first line and of the word of the entry
    that line yields. *)
Theorem byte_order_mark_is_kept :
  forall content text d l rest e,
    utf8_decode content = Some text ->
    text_lines text = (d :: l) :: rest ->
    py_isspace d = false ->
    parse_line (d :: l) = Some e ->
    read_lines ([xef; xbb; xbf] ++ content)
    = Some ((0xFEFF :: d :: l) :: rest)
    /\ parse_line (0xFEFF :: d :: l)
       = Some {| word := 0xFEFF :: word e; frequency := frequency e |}.
Proof.
  intros content text d l rest e Hdec Hlines Hd Hparse. split.
  - unfold read_lines.
    rewrite (utf8_decode_app [xef; xbb; xbf] content [0xFEFF] text)
      by (assumption || reflexivity).
    cbn [fmap option_fmap option_map app]. f_equal.
    unfold text_lines, universal_newlines in *.
    cbn [newline_decode]. change (0xFEFF =? CR) with false.
    change (0xFEFF =? LF) with false. cbv iota. cbn [andb lines_from].
    change (0xFEFF =? LF) with false. cbv iota. cbn [app].
    now apply lines_from_cons_cur.
  - now apply parse_line_cons.
Qed.

Lemma byte_order_mark_is_kept_witness :
  read_lines ([xef; xbb; xbf] ++ ascii_bytes "the 9" ++ [x0a])
  = Some [0xFEFF :: u "the 9" ++ [LF]]
  /\ parse_line (0xFEFF :: u "the 9" ++ [LF])
     = Some {| word := 0xFEFF :: u "the"; frequency := 9 |}.
Proof.
  apply (byte_order_mark_is_kept (ascii_bytes "the 9" ++ [x0a])
           (u "the 9" ++ [LF]) 116 (u "he 9" ++ [LF]) []
           {| word := u "the"; frequency := 9 |}).
  - vm_compute. reflexivity.
  - vm_compute. reflexivity.
  - vm_compute. reflexivity.
  - vm_compute. reflexivity.
Defined.
